(** * Navigation history of the file manager window (main.py)

    A shallow embedding of [MainWindow] from [src/main.py]: the part of the
    window that decides where the file list points and how the back/forward
    history evolves.  Widgets are reduced to the attributes the navigation
    code reads or writes; every Qt query the code makes is a field of an
    environment record that is passed to each handler, because the code asks
    Qt again on every call. *)

From Stdlib Require Import ZArith List String Bool Lia.
Import ListNotations.
Open Scope Z_scope.

(** ** Python list operations used by the source *)

Module Py.

Definition len {A : Type} (l : list A) : Z := Z.of_nat (List.length l).

(** [l[i]]: a negative [i] counts from the end; out of range raises
    IndexError, rendered as [None]. *)
Definition index {A : Type} (l : list A) (i : Z) : option A :=
  if 0 <=? i then nth_error l (Z.to_nat i)
  else if 0 <=? len l + i then nth_error l (Z.to_nat (len l + i))
  else None.

(** [l[:k]]: a negative [k] counts from the end; never raises. *)
Definition slice_to {A : Type} (l : list A) (k : Z) : list A :=
  if 0 <=? k then firstn (Z.to_nat k) l
  else firstn (Z.to_nat (len l + k)) l.

(** [not l] *)
Definition is_empty {A : Type} (l : list A) : bool :=
  match l with [] => true | _ :: _ => false end.

(** [l[-1] != x] on strings; evaluated only behind [not l or ...]. *)
Definition last_differs (l : list string) (x : string) : bool :=
  match index l (-1) with
  | Some e => negb (String.eqb e x)
  | None => true
  end.

End Py.

(** ** The Qt objects the navigation code talks to *)

(** A [QModelIndex] of the [QFileSystemModel]: either the invalid index or
    the node of a path.  [filePath] of the invalid index is the empty
    string. *)
Inductive QModelIndex : Type :=
| InvalidIndex
| NodeIndex (path : string).

Definition isValid (i : QModelIndex) : bool :=
  match i with InvalidIndex => false | NodeIndex _ => true end.

Definition filePath (i : QModelIndex) : string :=
  match i with InvalidIndex => EmptyString | NodeIndex p => p end.

(** What Qt answers at the time of one call. *)
Record Env : Type := mkEnv {
  QDir_homePath : string;                  (* QDir.homePath() *)
  QDir_exists : string -> bool;            (* QDir(p).exists() *)
  QDir_absolutePath : string -> string;    (* QDir(p).absolutePath() *)
  QDir_cdUp : string -> option string;     (* QDir(p).cdUp(), then absolutePath() *)
  fs_model_has : string -> bool;              (* fs_model.index(p).isValid() *)
  fs_model_isDir : QModelIndex -> bool;       (* fs_model.isDir(index) *)
  fs_model_has_setNameSortingEnabled : bool
    (* whether the QFileSystemModel object has the attribute called at
       line 49 *)
}.

(** [fs_model.index(path)] *)
Definition fs_model_index (q : Env) (path : string) : QModelIndex :=
  if fs_model_has q path then NodeIndex path else InvalidIndex.

(** ** The window state *)

Record MainWindow : Type := mkMainWindow {
  address_bar : string;                    (* address_bar.text() *)
  status_bar : option (string * Z);        (* last showMessage(text, timeout) *)
  rootIndex : QModelIndex;                 (* file_list_view.rootIndex() *)
  history : list string;
  history_position : Z;
  back_enabled : bool;                     (* back_action.isEnabled() *)
  forward_enabled : bool                   (* forward_action.isEnabled() *)
}.

Definition setText (t : string) (w : MainWindow) : MainWindow :=
  mkMainWindow t (status_bar w) (rootIndex w) (history w)
               (history_position w) (back_enabled w) (forward_enabled w).

Definition showMessage (t : string) (ms : Z) (w : MainWindow) : MainWindow :=
  mkMainWindow (address_bar w) (Some (t, ms)) (rootIndex w) (history w)
               (history_position w) (back_enabled w) (forward_enabled w).

Definition setRootIndex (i : QModelIndex) (w : MainWindow) : MainWindow :=
  mkMainWindow (address_bar w) (status_bar w) i (history w)
               (history_position w) (back_enabled w) (forward_enabled w).

Definition set_history (h : list string) (w : MainWindow) : MainWindow :=
  mkMainWindow (address_bar w) (status_bar w) (rootIndex w) h
               (history_position w) (back_enabled w) (forward_enabled w).

Definition set_history_position (p : Z) (w : MainWindow) : MainWindow :=
  mkMainWindow (address_bar w) (status_bar w) (rootIndex w) (history w)
               p (back_enabled w) (forward_enabled w).

Definition setEnabled (b f : bool) (w : MainWindow) : MainWindow :=
  mkMainWindow (address_bar w) (status_bar w) (rootIndex w) (history w)
               (history_position w) b f.

(** [fs_model.filePath(file_list_view.rootIndex())], which the source calls
    [current_path]. *)
Definition current_path (w : MainWindow) : string := filePath (rootIndex w).

(** ** The methods of [MainWindow] *)

Definition update_history_buttons_state (w : MainWindow) : MainWindow :=
  setEnabled (history_position w >? 0)
             (history_position w <? Py.len (history w) - 1) w.

(** The three places where the address bar is put back when the call did not
    come from back/forward. *)
Definition revert_address_bar (is_history_navigation : bool) (w : MainWindow)
  : MainWindow :=
  if negb is_history_navigation then setText (current_path w) w else w.

(** Lines 140-149: truncate the future, append unless equal to the last
    entry, point at the last entry. *)
Definition record_visit (normalized_path : string) (w : MainWindow)
  : MainWindow :=
  let w1 :=
    if history_position w <? Py.len (history w) - 1
    then set_history (Py.slice_to (history w) (history_position w + 1)) w
    else w in
  let w2 :=
    if Py.is_empty (history w1) || Py.last_differs (history w1) normalized_path
    then set_history (history w1 ++ [normalized_path])%list w1
    else w1 in
  set_history_position (Py.len (history w2) - 1) w2.

Definition change_directory (q : Env) (path_string : string)
    (is_history_navigation : bool) (w : MainWindow) : MainWindow :=
  if negb (QDir_exists q path_string) then
    revert_address_bar is_history_navigation
      (showMessage ("Path does not exist: " ++ path_string)%string 5000 w)
  else
    let normalized_path := QDir_absolutePath q path_string in
    let current_shown_path_index := rootIndex w in
    if isValid current_shown_path_index
       && String.eqb (filePath current_shown_path_index) normalized_path
    then
      if negb is_history_navigation then update_history_buttons_state w else w
    else
      let model_index := fs_model_index q normalized_path in
      if isValid model_index && fs_model_isDir q model_index then
        let w1 := setText normalized_path (setRootIndex model_index w) in
        let w2 :=
          if negb is_history_navigation then record_visit normalized_path w1
          else w1 in
        update_history_buttons_state w2
      else if negb (fs_model_isDir q model_index) && isValid model_index then
        revert_address_bar is_history_navigation
          (showMessage ("Not a directory: " ++ normalized_path)%string 3000 w)
      else
        revert_address_bar is_history_navigation
          (showMessage ("Cannot navigate to: " ++ normalized_path)%string 3000 w).

Definition on_list_view_double_clicked (q : Env) (index : QModelIndex)
    (w : MainWindow) : MainWindow :=
  if fs_model_isDir q index
  then change_directory q (filePath index) false w
  else w.

Definition on_address_bar_return_pressed (q : Env) (w : MainWindow)
  : MainWindow :=
  change_directory q (address_bar w) false w.

Definition go_up (q : Env) (w : MainWindow) : MainWindow :=
  let current := current_path w in
  match QDir_cdUp q current with
  | Some parent => change_directory q parent false w
  | None => showMessage ("Cannot go up from: " ++ current)%string 3000 w
  end.

Definition on_tree_view_clicked (q : Env) (index : QModelIndex)
    (w : MainWindow) : MainWindow :=
  if fs_model_isDir q index
  then change_directory q (filePath index) false w
  else w.

(** A slot either returns or stops at an IndexError raised by
    [self.history[self.history_position]]; the window keeps the attributes
    assigned before the exception. *)
Inductive Run : Type :=
| Returned (w : MainWindow)
| IndexError (w : MainWindow).

Definition window (r : Run) : MainWindow :=
  match r with Returned w => w | IndexError w => w end.

Definition replay (q : Env) (w : MainWindow) : Run :=
  match Py.index (history w) (history_position w) with
  | Some path_to_go => Returned (change_directory q path_to_go true w)
  | None => IndexError w
  end.

Definition go_back (q : Env) (w : MainWindow) : Run :=
  if history_position w >? 0
  then replay q (set_history_position (history_position w - 1) w)
  else Returned w.

Definition go_forward (q : Env) (w : MainWindow) : Run :=
  if history_position w <? Py.len (history w) - 1
  then replay q (set_history_position (history_position w + 1) w)
  else Returned w.

(** ** The window as a state machine *)

(** The attributes as the widget set-up of [__init__] leaves them, lines
    20-89: a [QAction] starts enabled, a view starts with the invalid root
    index, the history is empty at position -1. *)
Definition constructed : MainWindow :=
  mkMainWindow EmptyString None InvalidIndex [] (-1) true true.

(** The navigation part of [__init__], lines 87-103, for a constructor that
    gets that far: the first [change_directory] and the closing
    [update_history_buttons_state]. *)
Definition init (q : Env) : MainWindow :=
  update_history_buttons_state
    (change_directory q (QDir_homePath q) false constructed).

(** [__init__] as a whole.  Line 49 calls
    [self.fs_model.setNameSortingEnabled]; when the model object has no
    such attribute the call raises AttributeError, before [self.history]
    exists, and no window is constructed. *)
Inductive Construction : Type :=
| Constructed (w : MainWindow)
| AttributeError.

Definition __init__ (q : Env) : Construction :=
  if fs_model_has_setNameSortingEnabled q
  then Constructed (init q)
  else AttributeError.

(** The signals connected in [__init__].  [ReturnPressed t] is the user
    leaving [t] in the address bar and pressing return. *)
Inductive Signal : Type :=
| ReturnPressed (typed : string)
| ListDoubleClicked (index : QModelIndex)
| TreeClicked (index : QModelIndex)
| UpTriggered
| BackTriggered
| ForwardTriggered.

Definition slot (q : Env) (s : Signal) (w : MainWindow) : Run :=
  match s with
  | ReturnPressed t => Returned (on_address_bar_return_pressed q (setText t w))
  | ListDoubleClicked i => Returned (on_list_view_double_clicked q i w)
  | TreeClicked i => Returned (on_tree_view_clicked q i w)
  | UpTriggered => Returned (go_up q w)
  | BackTriggered => go_back q w
  | ForwardTriggered => go_forward q w
  end.

Definition step (q : Env) (s : Signal) (w : MainWindow) : MainWindow :=
  window (slot q s w).

(** A session: each signal arrives with the answers Qt gives at that time. *)
Fixpoint run (tr : list (Env * Signal)) (w : MainWindow) : MainWindow :=
  match tr with
  | [] => w
  | (q, s) :: tr' => run tr' (step q s w)
  end.

(** The windows a session can reach: the one [init] leaves, for any answers
    of Qt, and then any signals.  Every window a completed [__init__]
    leaves is among them; a constructor that raises only removes
    sessions. *)
Inductive reachable : MainWindow -> Prop :=
| reach_init : forall q, reachable (init q)
| reach_step : forall q s w, reachable w -> reachable (step q s w).

(** The enablement the view should expose, §4.2 of the design. *)
Definition canGoBack (w : MainWindow) : bool := history_position w >? 0.
Definition canGoForward (w : MainWindow) : bool :=
  history_position w <? Py.len (history w) - 1.

(** ** Qt's answers over a concrete directory tree

    The documented behaviour of the Qt calls, over a table of what lies at
    each absolute path.  [QDir::exists] returns true if the directory
    exists and false otherwise, also when a file with the same name is
    found; [QFileSystemModel::index] is valid for every existing entry and
    [filePath] gives back its path; [QFileSystemModel::isDir] is true for
    directories and for the invalid index; [QDir::cdUp] succeeds when the
    parent directory exists; [QFileSystemModel] has no method
    [setNameSortingEnabled]. *)

Inductive EntryKind : Type := Directory | RegularFile.

Record FileSystem : Type := mkFileSystem {
  home_of : string;
  absolute_of : string -> string;
  entry_at : string -> option EntryKind;
  parent_of : string -> option string
}.

Definition is_directory (fs : FileSystem) (p : string) : bool :=
  match entry_at fs p with Some Directory => true | _ => false end.

Definition Qt (fs : FileSystem) : Env :=
  mkEnv (home_of fs)
        (fun p => is_directory fs (absolute_of fs p))
        (absolute_of fs)
        (fun p => match parent_of fs (absolute_of fs p) with
                  | Some d => if is_directory fs d then Some d else None
                  | None => None
                  end)
        (fun p => match entry_at fs p with Some _ => true | None => false end)
        (fun i => match i with
                  | InvalidIndex => true
                  | NodeIndex p => is_directory fs p
                  end)
        false.

(** A directory tree given as a table of absolute paths, already in
    canonical form, with the parent of each. *)
Definition lookup {V : Type} (tbl : list (string * V)) (p : string) : option V :=
  match find (fun e => String.eqb (fst e) p) tbl with
  | Some e => Some (snd e)
  | None => None
  end.

Definition disk (tbl : list (string * (EntryKind * option string)))
  : FileSystem :=
  mkFileSystem "/home/u"
               (fun p => p)
               (fun p => option_map fst (lookup tbl p))
               (fun p => match lookup tbl p with
                         | Some (_, up) => up
                         | None => None
                         end).

Definition sample_disk : FileSystem :=
  disk [ ("/", (Directory, None));
         ("/home", (Directory, Some "/"));
         ("/home/u", (Directory, Some "/home"));
         ("/home/u/docs", (Directory, Some "/home/u"));
         ("/home/u/notes.txt", (RegularFile, Some "/home/u"));
         ("/etc", (Directory, Some "/"));
         ("/etc/passwd", (RegularFile, Some "/etc"));
         ("/srv", (Directory, Some "/")) ]%string.

(** The same tree after [/srv] has been removed from outside. *)
Definition sample_disk_without_srv : FileSystem :=
  disk [ ("/", (Directory, None));
         ("/home", (Directory, Some "/"));
         ("/home/u", (Directory, Some "/home"));
         ("/home/u/docs", (Directory, Some "/home/u"));
         ("/home/u/notes.txt", (RegularFile, Some "/home/u"));
         ("/etc", (Directory, Some "/"));
         ("/etc/passwd", (RegularFile, Some "/etc")) ]%string.

(** ** Predicates and sample sessions used in the statements *)

(** The two attributes the history invariants speak about. *)
Definition history_state (w : MainWindow) : list string * Z :=
  (history w, history_position w).

Inductive history_move (w w' : MainWindow) : Prop :=
| move_none : history_state w' = history_state w -> history_move w w'
| move_visit : forall np,
    history_state w' = history_state (record_visit np w) -> history_move w w'
| move_back :
    0 < history_position w ->
    history_state w' = (history w, history_position w - 1) ->
    history_move w w'
| move_forward :
    history_position w < Py.len (history w) - 1 ->
    history_state w' = (history w, history_position w + 1) ->
    history_move w w'.

Definition position_in_bounds (w : MainWindow) : Prop :=
  (history w = [] /\ history_position w = -1) \/
  (0 <= history_position w < Py.len (history w)).

(** No two neighbouring entries are equal. *)
Definition no_adjacent_duplicates (l : list string) : Prop :=
  forall (i : nat) (a b : string),
    nth_error l i = Some a -> nth_error l (S i) = Some b -> a <> b.

(** The test a path has to pass for [change_directory] to show it: the
    directory exists, and the model has a directory node at its canonical
    path. *)
Definition visitable (q : Env) (p : string) : bool :=
  QDir_exists q p
  && isValid (fs_model_index q (QDir_absolutePath q p))
  && fs_model_isDir q (fs_model_index q (QDir_absolutePath q p)).

(** A session in which [/srv] is visited, then [/etc], then [/srv] is
    removed from outside and the (enabled) back button is pressed. *)
Definition visited_srv_then_etc : MainWindow :=
  run [(Qt sample_disk, ReturnPressed "/srv"%string);
       (Qt sample_disk, ReturnPressed "/etc"%string)]
      (init (Qt sample_disk)).

Definition after_failed_back : MainWindow :=
  step (Qt sample_disk_without_srv) BackTriggered visited_srv_then_etc.

(** The sample tree after [/home/u] and what it held have been removed
    from outside. *)
Definition sample_disk_without_home : FileSystem :=
  disk [ ("/", (Directory, None));
         ("/home", (Directory, Some "/"));
         ("/etc", (Directory, Some "/"));
         ("/etc/passwd", (RegularFile, Some "/etc"));
         ("/srv", (Directory, Some "/")) ]%string.

(** The shown directory and the two exposed enablements. *)
Definition exposed (w : MainWindow) : string * bool * bool :=
  (current_path w, back_enabled w, forward_enabled w).

Definition enablement_correct (w : MainWindow) : Prop :=
  back_enabled w = canGoBack w /\ forward_enabled w = canGoForward w.

(** The file list shows the entry under the position. *)
Definition shown_is_current (w : MainWindow) : Prop :=
  match Py.index (history w) (history_position w) with
  | Some e => rootIndex w = NodeIndex e
  | None => rootIndex w = InvalidIndex
  end.

(** An entry as [change_directory] records it: visitable and equal to its
    own canonical form. *)
Definition recorded_ok (q : Env) (e : string) : Prop :=
  visitable q e = true /\ QDir_absolutePath q e = e.

Definition coherent (q : Env) (w : MainWindow) : Prop :=
  position_in_bounds w /\
  no_adjacent_duplicates (history w) /\
  (forall i e, nth_error (history w) i = Some e -> recorded_ok q e) /\
  shown_is_current w.

Definition settled (q : Env) (w : MainWindow) : Prop :=
  coherent q w /\ enablement_correct w.

(** Reachable while Qt keeps giving the answers [q]. *)
Inductive reachable_on_fixed_disk (q : Env) : MainWindow -> Prop :=
| fixed_init : reachable_on_fixed_disk q (init q)
| fixed_step : forall s w,
    reachable_on_fixed_disk q w -> reachable_on_fixed_disk q (step q s w).

(** The window after a replay that shows entry [e] at position [i]. *)
Definition moved_to (e : string) (i : Z) (w : MainWindow) : MainWindow :=
  update_history_buttons_state
    (setText e (setRootIndex (NodeIndex e) (set_history_position i w))).

(** The signals that are not a replay of the history. *)
Definition fresh (s : Signal) : bool :=
  match s with
  | BackTriggered | ForwardTriggered => false
  | _ => true
  end.

(** The five ways through [change_directory], by the answers of Qt and the
    directory shown: the path is missing, it is the one shown, it can be
    shown, the model has a node that is not a directory, the model has no
    node. *)
Inductive branch (q : Env) (p : string) (w : MainWindow) : Prop :=
| branch_missing :
    QDir_exists q p = false -> branch q p w
| branch_same :
    QDir_exists q p = true ->
    rootIndex w = NodeIndex (QDir_absolutePath q p) -> branch q p w
| branch_visit :
    visitable q p = true ->
    rootIndex w <> NodeIndex (QDir_absolutePath q p) -> branch q p w
| branch_not_a_directory :
    QDir_exists q p = true ->
    rootIndex w <> NodeIndex (QDir_absolutePath q p) ->
    fs_model_has q (QDir_absolutePath q p) = true ->
    fs_model_isDir q (NodeIndex (QDir_absolutePath q p)) = false ->
    branch q p w
| branch_no_node :
    QDir_exists q p = true ->
    rootIndex w <> NodeIndex (QDir_absolutePath q p) ->
    fs_model_has q (QDir_absolutePath q p) = false -> branch q p w.

(** The sample tree with one more spelling of the home directory. *)
Definition alias_disk : FileSystem :=
  mkFileSystem (home_of sample_disk)
               (fun p => if String.eqb p "/home/u/." then "/home/u"%string
                         else p)
               (entry_at sample_disk)
               (parent_of sample_disk).

(** * Properties *)

(** ** Frame lemmas for [change_directory] *)

Lemma revert_address_bar_frame (b : bool) (w : MainWindow) :
  status_bar (revert_address_bar b w) = status_bar w /\
  rootIndex (revert_address_bar b w) = rootIndex w /\
  history (revert_address_bar b w) = history w /\
  history_position (revert_address_bar b w) = history_position w /\
  back_enabled (revert_address_bar b w) = back_enabled w /\
  forward_enabled (revert_address_bar b w) = forward_enabled w.
Proof. destruct b; cbn; auto 7. Qed.

(** A call from back/forward never writes [history] or [history_position]. *)
Lemma change_directory_replay_frame (q : Env) (p : string) (w : MainWindow) :
  history (change_directory q p true w) = history w /\
  history_position (change_directory q p true w) = history_position w.
Proof.
  unfold change_directory.
  destruct (QDir_exists q p); cbn; [| auto].
  destruct (isValid (rootIndex w) &&
            String.eqb (filePath (rootIndex w)) (QDir_absolutePath q p));
    cbn; [auto |].
  destruct (isValid (fs_model_index q (QDir_absolutePath q p)) &&
            fs_model_isDir q (fs_model_index q (QDir_absolutePath q p)));
    cbn; [auto |].
  destruct (negb (fs_model_isDir q (fs_model_index q (QDir_absolutePath q p))) &&
            isValid (fs_model_index q (QDir_absolutePath q p))); cbn; auto.
Qed.

(** ** C10 *)

(** C10: a double-click in the file list, or a click in the tree, on an
    entry that is not a directory leaves the whole window as it was:
    history, position, shown directory, address bar, button enablement and
    status message. *)
Theorem non_directory_click_is_silent (q : Env) (index : QModelIndex)
    (w : MainWindow) :
  fs_model_isDir q index = false ->
  on_list_view_double_clicked q index w = w /\
  on_tree_view_clicked q index w = w /\
  slot q (ListDoubleClicked index) w = Returned w /\
  slot q (TreeClicked index) w = Returned w.
Proof.
  intros Hfile. cbn.
  unfold on_list_view_double_clicked, on_tree_view_clicked.
  rewrite Hfile. auto.
Qed.

Lemma non_directory_click_is_silent_witness :
  let q := Qt sample_disk in
  let i := NodeIndex "/home/u/notes.txt" in
  let w := init q in
  fs_model_isDir q i = false /\
  on_list_view_double_clicked q i w = w /\
  on_tree_view_clicked q i w = w /\
  slot q (ListDoubleClicked i) w = Returned w /\
  slot q (TreeClicked i) w = Returned w.
Proof.
  split; [reflexivity |].
  apply (non_directory_click_is_silent (Qt sample_disk)
           (NodeIndex "/home/u/notes.txt") (init (Qt sample_disk))).
  reflexivity.
Defined.

(** ** C5 *)

Lemma replay_frame (q : Env) (w : MainWindow) :
  history (window (replay q w)) = history w /\
  history_position (window (replay q w)) = history_position w.
Proof.
  unfold replay.
  destruct (Py.index (history w) (history_position w)); cbn; [| auto].
  apply change_directory_replay_frame.
Qed.

(** C5: back and forward never change the stored entries; the position stays
    or moves by exactly one. *)
Theorem replay_keeps_entries (q : Env) (w : MainWindow) :
  history (window (go_back q w)) = history w /\
  history (window (go_forward q w)) = history w /\
  (history_position (window (go_back q w)) = history_position w \/
   history_position (window (go_back q w)) = history_position w - 1) /\
  (history_position (window (go_forward q w)) = history_position w \/
   history_position (window (go_forward q w)) = history_position w + 1).
Proof.
  unfold go_back, go_forward.
  destruct (history_position w >? 0);
    destruct (history_position w <? Py.len (history w) - 1); cbn;
    repeat match goal with
           | |- context [replay q ?x] =>
               let H := fresh in
               pose proof (replay_frame q x) as H; cbn in H;
               destruct H as [-> ->]
           end; auto.
Qed.

(** ** C6 *)

(** C6: a fresh navigation to a path for which [QDir(path).exists()] is
    false reports "Path does not exist", puts the address bar back to the
    shown directory and changes nothing else; the same through the address
    bar slot. *)
Theorem not_found_is_atomic (q : Env) (p : string) (w : MainWindow) :
  QDir_exists q p = false ->
  let w' := change_directory q p false w in
  status_bar w' = Some (("Path does not exist: " ++ p)%string, 5000) /\
  address_bar w' = current_path w /\
  current_path w' = current_path w /\
  history w' = history w /\
  history_position w' = history_position w /\
  back_enabled w' = back_enabled w /\
  forward_enabled w' = forward_enabled w /\
  step q (ReturnPressed p) w = w'.
Proof.
  intros Hmissing. cbn.
  unfold step, slot, on_address_bar_return_pressed, change_directory. cbn.
  rewrite Hmissing. cbn. repeat split; reflexivity.
Qed.

Lemma not_found_is_atomic_witness :
  let q := Qt sample_disk in
  let w := init q in
  let w' := change_directory q "/no/such/path" false w in
  QDir_exists q "/no/such/path" = false /\
  status_bar w' = Some ("Path does not exist: /no/such/path"%string, 5000) /\
  address_bar w' = "/home/u"%string /\
  current_path w' = "/home/u"%string /\
  history w' = ["/home/u"%string] /\
  history_position w' = 0 /\
  back_enabled w' = back_enabled w /\
  forward_enabled w' = forward_enabled w /\
  step q (ReturnPressed "/no/such/path") w = w'.
Proof.
  split; [reflexivity |].
  apply (not_found_is_atomic (Qt sample_disk) "/no/such/path"
           (init (Qt sample_disk))).
  reflexivity.
Defined.

(** ** C4 *)

(** C4: a fresh navigation to a path whose canonical form is the directory
    already shown leaves the entries, the position and the shown directory
    as they were. *)
Theorem revisit_is_idempotent (q : Env) (p : string) (w : MainWindow) :
  rootIndex w = NodeIndex (QDir_absolutePath q p) ->
  let w' := change_directory q p false w in
  history w' = history w /\
  history_position w' = history_position w /\
  rootIndex w' = rootIndex w /\
  current_path w' = current_path w.
Proof.
  intros Hshown. cbn. unfold change_directory, current_path.
  destruct (QDir_exists q p); cbn.
  - rewrite Hshown. cbn. rewrite String.eqb_refl. cbn.
    rewrite Hshown. auto.
  - auto.
Qed.

Lemma revisit_is_idempotent_witness :
  let q := Qt sample_disk in
  let w := step q (ReturnPressed "/etc") (step q (ReturnPressed "/srv") (init q)) in
  let w' := change_directory q "/etc" false w in
  rootIndex w = NodeIndex (QDir_absolutePath q "/etc") /\
  history w' = ["/home/u"; "/srv"; "/etc"]%string /\
  history_position w' = 2 /\
  rootIndex w' = rootIndex w /\
  current_path w' = "/etc"%string.
Proof.
  split; [reflexivity |].
  apply (revisit_is_idempotent (Qt sample_disk) "/etc"
           (step (Qt sample_disk) (ReturnPressed "/etc")
              (step (Qt sample_disk) (ReturnPressed "/srv")
                 (init (Qt sample_disk))))).
  reflexivity.
Defined.

(** ** How each slot can move the history *)

Lemma record_visit_reads_history (np : string) (w w0 : MainWindow) :
  history_state w0 = history_state w ->
  history_state (record_visit np w0) = history_state (record_visit np w).
Proof.
  unfold history_state, record_visit. intros [= Hh Hp].
  rewrite Hh, Hp.
  destruct (history_position w <? Py.len (history w) - 1); cbn;
    [| rewrite Hh];
    match goal with
    | |- context [if ?c then _ else _] => destruct c
    end; cbn; try rewrite Hh; reflexivity.
Qed.

(** [change_directory] either leaves the history alone or records one visit
    of the canonical path, and the latter only on a fresh navigation. *)
Lemma change_directory_cases (q : Env) (p : string) (b : bool)
    (w : MainWindow) :
  history_state (change_directory q p b w) = history_state w \/
  (b = false /\
   history_state (change_directory q p b w) =
   history_state (record_visit (QDir_absolutePath q p) w)).
Proof.
  unfold change_directory.
  destruct (QDir_exists q p); cbn;
    [| left; destruct b; reflexivity].
  destruct (isValid (rootIndex w) &&
            String.eqb (filePath (rootIndex w)) (QDir_absolutePath q p));
    cbn; [left; destruct b; reflexivity |].
  destruct (isValid (fs_model_index q (QDir_absolutePath q p)) &&
            fs_model_isDir q (fs_model_index q (QDir_absolutePath q p))); cbn.
  - destruct b; cbn; [left; reflexivity |].
    right. split; [reflexivity |].
    exact (record_visit_reads_history (QDir_absolutePath q p) w
             (setText (QDir_absolutePath q p)
                (setRootIndex (fs_model_index q (QDir_absolutePath q p)) w))
             eq_refl).
  - destruct (negb (fs_model_isDir q (fs_model_index q (QDir_absolutePath q p))) &&
              isValid (fs_model_index q (QDir_absolutePath q p)));
      left; destruct b; reflexivity.
Qed.

Lemma change_directory_fresh_move (q : Env) (p : string) (w : MainWindow) :
  history_move w (change_directory q p false w).
Proof.
  destruct (change_directory_cases q p false w) as [H | [_ H]].
  - now apply move_none.
  - now apply move_visit with (np := QDir_absolutePath q p).
Qed.

Lemma replay_state (q : Env) (w : MainWindow) :
  history_state (window (replay q w)) = history_state w.
Proof.
  unfold history_state.
  destruct (replay_frame q w) as [-> ->]. reflexivity.
Qed.

Lemma step_move (q : Env) (s : Signal) (w : MainWindow) :
  history_move w (step q s w).
Proof.
  unfold step.
  destruct s as [t | i | i | | |]; cbn.
  - unfold on_address_bar_return_pressed. cbn.
    destruct (change_directory_cases q t false (setText t w))
      as [H | [_ H]].
    + apply move_none. rewrite H. reflexivity.
    + apply move_visit with (np := QDir_absolutePath q t). rewrite H.
      apply record_visit_reads_history. reflexivity.
  - unfold on_list_view_double_clicked.
    destruct (fs_model_isDir q i);
      [apply change_directory_fresh_move | now apply move_none].
  - unfold on_tree_view_clicked.
    destruct (fs_model_isDir q i);
      [apply change_directory_fresh_move | now apply move_none].
  - unfold go_up.
    destruct (QDir_cdUp q (current_path w));
      [apply change_directory_fresh_move | now apply move_none].
  - unfold go_back.
    destruct (history_position w >? 0) eqn:Hpos; [| now apply move_none].
    apply move_back; [lia |].
    rewrite replay_state. reflexivity.
  - unfold go_forward.
    destruct (history_position w <? Py.len (history w) - 1) eqn:Hpos;
      [| now apply move_none].
    apply move_forward; [lia |].
    rewrite replay_state. reflexivity.
Qed.

Lemma init_move (q : Env) : history_move constructed (init q).
Proof.
  unfold init.
  destruct (change_directory_cases q (QDir_homePath q) false constructed)
    as [H | [_ H]].
  - apply move_none. rewrite <- H. reflexivity.
  - apply move_visit with (np := QDir_absolutePath q (QDir_homePath q)).
    rewrite <- H. reflexivity.
Qed.

(** What one recorded visit does to the entries: keep the whole list or a
    prefix of it, append the path unless the kept part already ends with it,
    and point at the last entry. *)
Lemma record_visit_shape (np : string) (w : MainWindow) :
  exists n : nat,
    let kept := firstn n (history w) in
    ((history (record_visit np w) = (kept ++ [np])%list /\
      (kept = [] \/ Py.last_differs kept np = true)) \/
     (history (record_visit np w) = kept /\ kept <> [] /\
      Py.last_differs kept np = false)) /\
    history_position (record_visit np w) =
    Py.len (history (record_visit np w)) - 1.
Proof.
  assert (Hkept : exists n : nat,
             (if history_position w <? Py.len (history w) - 1
              then Py.slice_to (history w) (history_position w + 1)
              else history w) = firstn n (history w)).
  { destruct (history_position w <? Py.len (history w) - 1).
    - unfold Py.slice_to.
      destruct (0 <=? history_position w + 1); eexists; reflexivity.
    - exists (List.length (history w)). now rewrite firstn_all. }
  destruct Hkept as [n Hn]. exists n. cbn zeta.
  unfold record_visit.
  set (w1 := if history_position w <? Py.len (history w) - 1
             then set_history _ w else w).
  assert (Hw1 : history w1 = firstn n (history w)).
  { subst w1. rewrite <- Hn.
    destruct (history_position w <? Py.len (history w) - 1); reflexivity. }
  rewrite Hw1.
  destruct (firstn n (history w)) as [| e kept] eqn:Hk; cbn.
  - split; [left; auto | reflexivity].
  - destruct (Py.last_differs (e :: kept) np) eqn:Hlast; cbn.
    + split; [left; auto | reflexivity].
    + rewrite Hw1.
      split; [| reflexivity].
      right. split; [reflexivity |]. split; [discriminate | reflexivity].
Qed.

Lemma history_state_inv (a b : MainWindow) :
  history_state a = history_state b ->
  history a = history b /\ history_position a = history_position b.
Proof.
  intros H. split; [exact (f_equal fst H) | exact (f_equal snd H)].
Qed.

Lemma history_state_pair (a : MainWindow) (h : list string) (p : Z) :
  history_state a = (h, p) -> history a = h /\ history_position a = p.
Proof.
  intros H. split; [exact (f_equal fst H) | exact (f_equal snd H)].
Qed.

(** ** C8 *)

Lemma history_move_bounds (w w' : MainWindow) :
  history_move w w' -> position_in_bounds w -> position_in_bounds w'.
Proof.
  unfold position_in_bounds.
  intros [H | np H | Hpos H | Hpos H] Hw;
    [apply history_state_inv in H | apply history_state_inv in H
     | apply history_state_pair in H | apply history_state_pair in H];
    destruct H as [Hh Hp]; rewrite Hh, Hp; clear Hh Hp.
  - exact Hw.
  - right.
    destruct (record_visit_shape np w) as [n [Hshape ->]]. cbn zeta in Hshape.
    destruct Hshape as [[-> _] | [-> [Hne _]]]; unfold Py.len.
    + rewrite length_app. cbn [List.length]. lia.
    + destruct (firstn n (history w)); [contradiction |].
      cbn [List.length]. lia.
  - right. destruct Hw as [[_ Hw] | Hw]; lia.
  - right. destruct Hw as [[Hh Hw] | Hw]; [| lia].
    rewrite Hh in Hpos. unfold Py.len in Hpos. cbn in Hpos. lia.
Qed.

Lemma reachable_position_in_bounds (w : MainWindow) :
  reachable w -> position_in_bounds w.
Proof.
  induction 1 as [q | q s w _ IH].
  - apply (history_move_bounds constructed); [apply init_move |].
    left. split; reflexivity.
  - apply (history_move_bounds w); [apply step_move | exact IH].
Qed.

(** C8: in every reachable state the position is a valid index of the
    entries whenever there are entries, and it is -1 exactly when there are
    none. *)
Theorem position_bounds_invariant (w : MainWindow) :
  reachable w ->
  (history w <> [] -> 0 <= history_position w < Py.len (history w)) /\
  (history_position w = -1 <-> history w = []).
Proof.
  intros Hreach.
  destruct (reachable_position_in_bounds w Hreach) as [[Hh Hp] | Hb].
  - rewrite Hh, Hp. split; [intros Hne; now contradiction Hne |].
    split; reflexivity.
  - split; [intros _; exact Hb |].
    split; [lia |].
    intros Hh. rewrite Hh in Hb. unfold Py.len in Hb. cbn in Hb. lia.
Qed.

Lemma position_bounds_invariant_witness :
  let q := Qt sample_disk in
  let w := run [(q, ReturnPressed "/srv"%string); (q, BackTriggered)] (init q) in
  (history w <> [] -> 0 <= history_position w < Py.len (history w)) /\
  (history_position w = -1 <-> history w = []).
Proof.
  apply (position_bounds_invariant
           (run [(Qt sample_disk, ReturnPressed "/srv"%string);
                 (Qt sample_disk, BackTriggered)]
                (init (Qt sample_disk)))).
  cbn [run]. apply reach_step. apply reach_step. apply reach_init.
Defined.

(** ** C7 *)

Lemma no_adjacent_duplicates_firstn (n : nat) (l : list string) :
  no_adjacent_duplicates l -> no_adjacent_duplicates (firstn n l).
Proof.
  intros Hl i a b Ha Hb.
  rewrite nth_error_firstn in Ha, Hb.
  destruct (Nat.ltb i n); [| discriminate Ha].
  destruct (Nat.ltb (S i) n); [| discriminate Hb].
  exact (Hl i a b Ha Hb).
Qed.

Lemma last_differs_last (l : list string) (x a : string) (i : nat) :
  Py.last_differs l x = true ->
  nth_error l i = Some a -> S i = List.length l -> a <> x.
Proof.
  unfold Py.last_differs, Py.index, Py.len. intros Hlast Ha Hlen.
  replace (0 <=? -1) with false in Hlast by reflexivity.
  replace (0 <=? Z.of_nat (List.length l) + -1) with true in Hlast
    by (symmetry; apply Z.leb_le; lia).
  replace (Z.to_nat (Z.of_nat (List.length l) + -1)) with i in Hlast by lia.
  rewrite Ha in Hlast.
  apply negb_true_iff in Hlast. now apply String.eqb_neq.
Qed.

Lemma no_adjacent_duplicates_append (l : list string) (x : string) :
  no_adjacent_duplicates l ->
  l = [] \/ Py.last_differs l x = true ->
  no_adjacent_duplicates (l ++ [x]).
Proof.
  intros Hl Hlast i a b Ha Hb.
  destruct (Nat.lt_ge_cases (S i) (List.length l)) as [Hin | Hout].
  - rewrite nth_error_app1 in Ha, Hb by lia.
    exact (Hl i a b Ha Hb).
  - assert (Hi : S i = List.length l).
    { assert (nth_error (l ++ [x]) (S i) <> None) as Hsome
        by (rewrite Hb; discriminate).
      apply nth_error_Some in Hsome. rewrite length_app in Hsome.
      cbn in Hsome. lia. }
    rewrite nth_error_app1 in Ha by lia.
    rewrite nth_error_app2 in Hb by lia.
    rewrite Hi, Nat.sub_diag in Hb. cbn in Hb. injection Hb as <-.
    destruct Hlast as [-> | Hlast]; [discriminate Hi |].
    exact (last_differs_last l x a i Hlast Ha Hi).
Qed.

Lemma history_move_no_adjacent_duplicates (w w' : MainWindow) :
  history_move w w' ->
  no_adjacent_duplicates (history w) -> no_adjacent_duplicates (history w').
Proof.
  intros [H | np H | _ H | _ H] Hw;
    [apply history_state_inv in H | apply history_state_inv in H
     | apply history_state_pair in H | apply history_state_pair in H];
    destruct H as [-> _]; try exact Hw.
  destruct (record_visit_shape np w) as [n [Hshape _]]. cbn zeta in Hshape.
  destruct Hshape as [[-> Hlast] | [-> _]].
  - apply no_adjacent_duplicates_append; [| exact Hlast].
    now apply no_adjacent_duplicates_firstn.
  - now apply no_adjacent_duplicates_firstn.
Qed.

(** C7: whatever signals arrive after start-up, and whatever Qt answers at
    each of them, no two neighbouring history entries are equal. *)
Theorem no_consecutive_duplicates (w : MainWindow) :
  reachable w -> no_adjacent_duplicates (history w).
Proof.
  induction 1 as [q | q s w _ IH].
  - apply (history_move_no_adjacent_duplicates constructed);
      [apply init_move |].
    intros [| i] a b Ha; discriminate Ha.
  - apply (history_move_no_adjacent_duplicates w);
      [apply step_move | exact IH].
Qed.

Lemma no_consecutive_duplicates_witness :
  let q := Qt sample_disk in
  no_adjacent_duplicates
    (history (run [(q, ReturnPressed "/srv"%string);
                   (q, ReturnPressed "/srv"%string);
                   (q, BackTriggered);
                   (q, ReturnPressed "/home/u"%string);
                   (q, ReturnPressed "/etc"%string)] (init q))).
Proof.
  apply (no_consecutive_duplicates
           (run [(Qt sample_disk, ReturnPressed "/srv"%string);
                 (Qt sample_disk, ReturnPressed "/srv"%string);
                 (Qt sample_disk, BackTriggered);
                 (Qt sample_disk, ReturnPressed "/home/u"%string);
                 (Qt sample_disk, ReturnPressed "/etc"%string)]
                (init (Qt sample_disk)))).
  cbn [run]. repeat apply reach_step. apply reach_init.
Defined.

(** ** C1 *)

Lemma visitable_inv (q : Env) (p : string) :
  visitable q p = true ->
  QDir_exists q p = true /\
  fs_model_index q (QDir_absolutePath q p) = NodeIndex (QDir_absolutePath q p) /\
  fs_model_isDir q (NodeIndex (QDir_absolutePath q p)) = true.
Proof.
  unfold visitable, fs_model_index. intros H.
  apply andb_true_iff in H. destruct H as [H Hdir].
  apply andb_true_iff in H. destruct H as [Hex Hval].
  destruct (fs_model_has q (QDir_absolutePath q p)); [| discriminate Hval].
  auto.
Qed.

Lemma valid_index_with_path (i : QModelIndex) (p : string) :
  isValid i && String.eqb (filePath i) p = true -> i = NodeIndex p.
Proof.
  destruct i as [| p']; cbn; [discriminate |].
  intros H. apply String.eqb_eq in H. now subst.
Qed.

Lemma record_visit_frame (np : string) (w : MainWindow) :
  address_bar (record_visit np w) = address_bar w /\
  status_bar (record_visit np w) = status_bar w /\
  rootIndex (record_visit np w) = rootIndex w.
Proof.
  unfold record_visit.
  destruct (history_position w <? Py.len (history w) - 1); cbn;
    match goal with
    | |- context [if ?c then _ else _] => destruct c
    end; cbn; auto.
Qed.

(** Whoever calls it, [change_directory] on a visitable path ends with that
    path's canonical form shown in the file list. *)
Lemma change_directory_shows (q : Env) (p : string) (b : bool)
    (w : MainWindow) :
  visitable q p = true ->
  rootIndex (change_directory q p b w) = NodeIndex (QDir_absolutePath q p).
Proof.
  intros Hv. destruct (visitable_inv q p Hv) as (Hex & Hidx & Hdir).
  unfold change_directory. rewrite Hex. cbn.
  destruct (isValid (rootIndex w) &&
            String.eqb (filePath (rootIndex w)) (QDir_absolutePath q p))
    eqn:Hsame.
  - apply valid_index_with_path in Hsame.
    destruct b; cbn; exact Hsame.
  - rewrite Hidx. cbn. rewrite Hdir. destruct b; [reflexivity |].
    set (shown := setText (QDir_absolutePath q p)
                    (setRootIndex (NodeIndex (QDir_absolutePath q p)) w)).
    transitivity (rootIndex (record_visit (QDir_absolutePath q p) shown));
      [reflexivity |].
    now destruct (record_visit_frame (QDir_absolutePath q p) shown)
      as (_ & _ & ->).
Qed.

(** A fresh navigation to a visitable path other than the shown one records
    the visit. *)
Lemma change_directory_fresh_visit (q : Env) (p : string) (w : MainWindow) :
  visitable q p = true ->
  rootIndex w <> NodeIndex (QDir_absolutePath q p) ->
  history_state (change_directory q p false w) =
  history_state (record_visit (QDir_absolutePath q p) w).
Proof.
  intros Hv Hother. destruct (visitable_inv q p Hv) as (Hex & Hidx & Hdir).
  unfold change_directory. rewrite Hex. cbn.
  destruct (isValid (rootIndex w) &&
            String.eqb (filePath (rootIndex w)) (QDir_absolutePath q p))
    eqn:Hsame.
  - apply valid_index_with_path in Hsame. contradiction.
  - rewrite Hidx. cbn. rewrite Hdir.
    exact (record_visit_reads_history (QDir_absolutePath q p) w
             (setText (QDir_absolutePath q p)
                (setRootIndex (NodeIndex (QDir_absolutePath q p)) w))
             eq_refl).
Qed.

Lemma go_back_returns (q : Env) (w : MainWindow) (p : string) :
  0 < history_position w ->
  Py.index (history w) (history_position w - 1) = Some p ->
  go_back q w =
  Returned (change_directory q p true
              (set_history_position (history_position w - 1) w)).
Proof.
  intros Hpos Hp. unfold go_back, replay.
  replace (history_position w >? 0) with true by (symmetry; lia).
  cbn. rewrite Hp. reflexivity.
Qed.

(** Branch truncation while the first entry is still a directory in
    canonical form: from entries [A; B; C] at position 2, two steps back
    reach position 0 with the entries untouched; a fresh navigation to a
    valid directory [D] whose canonical form differs from [A] then leaves
    exactly [A] followed by that canonical form, at position 1. *)
Theorem branch_truncation (q : Env) (w : MainWindow) (A B C D : string) :
  history w = [A; B; C] ->
  history_position w = 2 ->
  visitable q A = true ->
  QDir_absolutePath q A = A ->
  visitable q D = true ->
  QDir_absolutePath q D <> A ->
  let w1 := window (go_back q w) in
  let w2 := window (go_back q w1) in
  let w3 := change_directory q D false w2 in
  go_back q w = Returned w1 /\
  go_back q w1 = Returned w2 /\
  history w1 = [A; B; C] /\
  history w2 = [A; B; C] /\
  history_position w2 = 0 /\
  history w3 = [A; QDir_absolutePath q D] /\
  history_position w3 = 1 /\
  (QDir_absolutePath q D = D -> history w3 = [A; D]).
Proof.
  intros Hh Hp HA HcA HD HDA.
  assert (Hb1 : go_back q w =
                Returned (change_directory q B true
                            (set_history_position 1 w))).
  { rewrite (go_back_returns q w B); rewrite Hp, ?Hh; try reflexivity; lia. }
  rewrite Hb1. cbn [window].
  set (w1 := change_directory q B true (set_history_position 1 w)).
  assert (Hs1 : history w1 = [A; B; C] /\ history_position w1 = 1).
  { subst w1.
    destruct (change_directory_replay_frame q B (set_history_position 1 w))
      as [-> ->]. cbn. auto. }
  destruct Hs1 as [Hh1 Hp1].
  assert (Hb2 : go_back q w1 =
                Returned (change_directory q A true
                            (set_history_position 0 w1))).
  { rewrite (go_back_returns q w1 A); rewrite Hp1, ?Hh1; try reflexivity; lia. }
  rewrite Hb2. cbn [window].
  set (w2 := change_directory q A true (set_history_position 0 w1)).
  assert (Hs2 : history w2 = [A; B; C] /\ history_position w2 = 0).
  { subst w2.
    destruct (change_directory_replay_frame q A (set_history_position 0 w1))
      as [-> ->]. cbn. auto. }
  destruct Hs2 as [Hh2 Hp2].
  assert (Hroot : rootIndex w2 = NodeIndex A).
  { subst w2. rewrite change_directory_shows by exact HA. now rewrite HcA. }
  assert (Hs3 : history_state (change_directory q D false w2) =
                ([A; QDir_absolutePath q D], 1)).
  { rewrite change_directory_fresh_visit;
      [| exact HD | rewrite Hroot; intros [= E]; now apply HDA].
    rewrite (record_visit_reads_history (QDir_absolutePath q D)
               (mkMainWindow EmptyString None InvalidIndex [A; B; C] 0
                             true true) w2)
      by (unfold history_state; now rewrite Hh2, Hp2).
    assert (HAD : String.eqb A (QDir_absolutePath q D) = false)
      by (apply String.eqb_neq; intros E; now apply HDA).
    unfold history_state, record_visit, Py.last_differs, Py.index,
      Py.slice_to, Py.len. cbn.
    change (PosDef.Pos.to_nat 1) with 1%nat. cbn.
    rewrite HAD. reflexivity. }
  apply history_state_pair in Hs3. destruct Hs3 as [Hh3 Hp3].
  repeat split; auto.
  intros HcD. rewrite Hh3, HcD. reflexivity.
Qed.

Lemma branch_truncation_witness :
  let q := Qt sample_disk in
  let w := run [(q, ReturnPressed "/srv"%string);
                (q, ReturnPressed "/etc"%string)] (init q) in
  let w1 := window (go_back q w) in
  let w2 := window (go_back q w1) in
  let w3 := change_directory q "/home/u/docs" false w2 in
  (history w = ["/home/u"; "/srv"; "/etc"]%string /\
   history_position w = 2) /\
  go_back q w = Returned w1 /\
  go_back q w1 = Returned w2 /\
  history w1 = ["/home/u"; "/srv"; "/etc"]%string /\
  history w2 = ["/home/u"; "/srv"; "/etc"]%string /\
  history_position w2 = 0 /\
  history w3 = ["/home/u"; "/home/u/docs"]%string /\
  history_position w3 = 1 /\
  (QDir_absolutePath q "/home/u/docs" = "/home/u/docs"%string ->
   history w3 = ["/home/u"; "/home/u/docs"]%string).
Proof.
  split; [split; reflexivity |].
  apply (branch_truncation (Qt sample_disk)
           (run [(Qt sample_disk, ReturnPressed "/srv"%string);
                 (Qt sample_disk, ReturnPressed "/etc"%string)]
                (init (Qt sample_disk)))
           "/home/u" "/srv" "/etc" "/home/u/docs");
    try reflexivity.
  cbn. discriminate.
Defined.

(** C1 (fails in the code): with entries [/home/u; /srv; /etc] at position
    2 and [/home/u] removed from outside, two back presses do reach
    position 0 with the entries unchanged, but the second cannot show
    [/home/u] and leaves [/srv] in the file list.  A fresh navigation to
    [/srv], a valid directory different from [/home/u], is then taken for a
    revisit of the shown directory: the entries stay [/home/u; /srv; /etc]
    at position 0 instead of [/home/u; /srv] at position 1. *)
Theorem branch_kept_after_failed_back :
  let q := Qt sample_disk_without_home in
  let w := visited_srv_then_etc in
  let w1 := window (go_back q w) in
  let w2 := window (go_back q w1) in
  let w3 := change_directory q "/srv" false w2 in
  (history w = ["/home/u"; "/srv"; "/etc"]%string /\
   history_position w = 2 /\ back_enabled w = true) /\
  (go_back q w = Returned w1 /\ back_enabled w1 = true /\
   go_back q w1 = Returned w2) /\
  (history w2 = ["/home/u"; "/srv"; "/etc"]%string /\
   history_position w2 = 0 /\ current_path w2 = "/srv"%string) /\
  (visitable q "/srv" = true /\
   QDir_absolutePath q "/srv" = "/srv"%string /\
   "/srv"%string <> "/home/u"%string) /\
  history w3 = ["/home/u"; "/srv"; "/etc"]%string /\
  history_position w3 = 0 /\
  history w3 <> ["/home/u"; "/srv"]%string /\
  history_position w3 <> 1 /\
  history (step q (ReturnPressed "/srv") w2) = history w3 /\
  history_position (step q (ReturnPressed "/srv") w2) = 0.
Proof.
  cbv zeta. repeat split; try (vm_compute; reflexivity);
    vm_compute; discriminate.
Qed.

(** ** C3 *)

(** In the window's own terms the branch exists: if Qt ever answered that
    the path exists, is not the shown one, and has a model node that is not
    a directory, the message would be "Not a directory" and nothing but the
    address bar and the status bar would be written. *)
Lemma not_a_directory_branch (q : Env) (p : string) (w : MainWindow) :
  QDir_exists q p = true ->
  rootIndex w <> NodeIndex (QDir_absolutePath q p) ->
  fs_model_has q (QDir_absolutePath q p) = true ->
  fs_model_isDir q (NodeIndex (QDir_absolutePath q p)) = false ->
  let w' := change_directory q p false w in
  status_bar w' =
  Some (("Not a directory: " ++ QDir_absolutePath q p)%string, 3000) /\
  address_bar w' = current_path w /\
  rootIndex w' = rootIndex w /\
  history w' = history w /\
  history_position w' = history_position w.
Proof.
  intros Hex Hother Hhas Hfile. cbn.
  unfold change_directory. rewrite Hex. cbn.
  destruct (isValid (rootIndex w) &&
            String.eqb (filePath (rootIndex w)) (QDir_absolutePath q p))
    eqn:Hsame.
  - apply valid_index_with_path in Hsame. contradiction.
  - unfold fs_model_index. rewrite Hhas. cbn. rewrite Hfile. cbn. auto.
Qed.

(** With Qt's [QDir::exists], a path that passes the first test of
    [change_directory] is a directory, so it passes the directory test
    too. *)
Lemma Qt_exists_is_visitable (fs : FileSystem) (p : string) :
  QDir_exists (Qt fs) p = true -> visitable (Qt fs) p = true.
Proof.
  unfold visitable, fs_model_index. cbn. unfold is_directory.
  destruct (entry_at fs (absolute_of fs p)) as [[|] |] eqn:Hentry; cbn;
    try discriminate.
  intros _. unfold is_directory. now rewrite Hentry.
Qed.

(** Every path that names an existing file is reported as missing. *)
Lemma file_path_reported_missing (fs : FileSystem) (p : string)
    (w : MainWindow) :
  entry_at fs (absolute_of fs p) = Some RegularFile ->
  status_bar (change_directory (Qt fs) p false w) =
  Some (("Path does not exist: " ++ p)%string, 5000).
Proof.
  intros Hfile. unfold change_directory. cbn.
  unfold is_directory. now rewrite Hfile.
Qed.

(** C3 (fails in the code): [/etc/passwd] exists and is a regular file;
    typing it in the address bar while [/home/u] is shown yields the
    not-found message, not the "Not a directory" one.  The address bar is
    put back and the history is untouched, as specified. *)
Theorem typed_file_path_reports_not_found :
  let q := Qt sample_disk in
  let w := init q in
  let w' := step q (ReturnPressed "/etc/passwd") w in
  entry_at sample_disk "/etc/passwd" = Some RegularFile /\
  current_path w = "/home/u"%string /\
  status_bar w' = Some ("Path does not exist: /etc/passwd"%string, 5000) /\
  status_bar w' <> Some ("Not a directory: /etc/passwd"%string, 3000) /\
  address_bar w' = "/home/u"%string /\
  current_path w' = current_path w /\
  history w' = history w /\
  history_position w' = history_position w.
Proof.
  cbv zeta. repeat split; try reflexivity.
  vm_compute. discriminate.
Qed.

(** ** C2 *)

(** Whatever Qt answers, a fresh navigation leaves the buttons right if
    they were: it either refreshes them or changes neither the entries nor
    the position. *)
Lemma change_directory_fresh_enablement (q : Env) (p : string)
    (w : MainWindow) :
  enablement_correct w -> enablement_correct (change_directory q p false w).
Proof.
  intros He. unfold change_directory.
  destruct (QDir_exists q p); cbn; [| exact He].
  destruct (isValid (rootIndex w) &&
            String.eqb (filePath (rootIndex w)) (QDir_absolutePath q p));
    [split; reflexivity |].
  destruct (isValid (fs_model_index q (QDir_absolutePath q p)) &&
            fs_model_isDir q (fs_model_index q (QDir_absolutePath q p)));
    cbn; [split; reflexivity |].
  destruct (negb (fs_model_isDir q
                    (fs_model_index q (QDir_absolutePath q p))) &&
            isValid (fs_model_index q (QDir_absolutePath q p)));
    exact He.
Qed.

(** X16: whatever Qt answers, every signal other than back and forward
    leaves the two buttons equal to [position > 0] and
    [position < len(history) - 1] if they were. *)
Lemma fresh_signal_enablement (q : Env) (s : Signal) (w : MainWindow) :
  s <> BackTriggered -> s <> ForwardTriggered ->
  enablement_correct w -> enablement_correct (step q s w).
Proof.
  intros Hb Hf He. unfold step.
  destruct s as [t | i | i | | |]; cbn; try contradiction.
  - unfold on_address_bar_return_pressed.
    now apply change_directory_fresh_enablement.
  - unfold on_list_view_double_clicked.
    destruct (fs_model_isDir q i);
      [now apply change_directory_fresh_enablement | exact He].
  - unfold on_tree_view_clicked.
    destruct (fs_model_isDir q i);
      [now apply change_directory_fresh_enablement | exact He].
  - unfold go_up.
    destruct (QDir_cdUp q (current_path w));
      [now apply change_directory_fresh_enablement | exact He].
Qed.

(** The defect in general: when the entry before the position is no longer
    a directory, back moves the position and leaves both buttons as they
    were. *)
Lemma failed_back_keeps_buttons (q : Env) (w : MainWindow) (e : string) :
  0 < history_position w ->
  Py.index (history w) (history_position w - 1) = Some e ->
  QDir_exists q e = false ->
  let w' := window (go_back q w) in
  history_position w' = history_position w - 1 /\
  back_enabled w' = back_enabled w /\
  forward_enabled w' = forward_enabled w /\
  rootIndex w' = rootIndex w.
Proof.
  intros Hpos He Hgone. cbn zeta.
  rewrite (go_back_returns q w e Hpos He). cbn [window].
  unfold change_directory. cbn. rewrite Hgone. cbn. auto.
Qed.

Lemma after_failed_back_reachable : reachable after_failed_back.
Proof.
  unfold after_failed_back, visited_srv_then_etc. cbn [run].
  repeat apply reach_step. apply reach_init.
Qed.

(** C2 (fails in the code): when back leads to a directory that no longer
    exists, [go_back] has already moved the position and
    [change_directory] returns at the not-found test without refreshing the
    buttons: the position is 1 of 3 entries, yet forward stays disabled. *)
Theorem enablement_stale_after_failed_back :
  back_enabled visited_srv_then_etc = true /\
  history visited_srv_then_etc = ["/home/u"; "/srv"; "/etc"]%string /\
  history_position visited_srv_then_etc = 2 /\
  reachable after_failed_back /\
  status_bar after_failed_back =
  Some ("Path does not exist: /srv"%string, 5000) /\
  history after_failed_back = ["/home/u"; "/srv"; "/etc"]%string /\
  history_position after_failed_back = 1 /\
  canGoForward after_failed_back = true /\
  forward_enabled after_failed_back = false /\
  forward_enabled after_failed_back <> canGoForward after_failed_back.
Proof.
  repeat split; try reflexivity.
  - exact after_failed_back_reachable.
  - vm_compute. discriminate.
Qed.

(** ** C9 *)

(** C9 (fails in the code): in the reachable state left by the failed back
    above, back is enabled; pressing back and then forward, with the disk
    unchanged in between, ends on another shown directory and with both
    enablements flipped. *)
Theorem back_forward_asymmetry_after_failed_back :
  let q := Qt sample_disk_without_srv in
  let w := after_failed_back in
  let w1 := window (go_back q w) in
  let w2 := window (go_forward q w1) in
  reachable w /\
  back_enabled w = true /\ canGoBack w = true /\
  go_back q w = Returned w1 /\
  forward_enabled w1 = true /\ canGoForward w1 = true /\
  go_forward q w1 = Returned w2 /\
  exposed w = ("/etc"%string, true, false) /\
  exposed w2 = ("/home/u"%string, false, true) /\
  exposed w2 <> exposed w.
Proof.
  cbv zeta. repeat split; try reflexivity.
  - exact after_failed_back_reachable.
  - vm_compute. discriminate.
Qed.

(** ** Sessions over a disk that does not change

    What C2 and C9 say does hold as long as Qt keeps giving the same
    answers: every recorded entry stays visitable, the file list shows the
    entry under the position, and every replay succeeds. *)

Lemma Py_index_in_range {A : Type} (l : list A) (i : Z) :
  0 <= i < Py.len l -> Py.index l i = nth_error l (Z.to_nat i).
Proof.
  intros Hi. unfold Py.index.
  replace (0 <=? i) with true by (symmetry; apply Z.leb_le; lia).
  reflexivity.
Qed.

Lemma Py_index_last (l : list string) :
  l <> [] -> Py.index l (-1) = Py.index l (Py.len l - 1).
Proof.
  intros Hne. unfold Py.index at 1.
  replace (0 <=? -1) with false by reflexivity.
  assert (0 < Py.len l)
    by (unfold Py.len; destruct l; [contradiction | cbn [List.length]; lia]).
  replace (0 <=? Py.len l + -1) with true by (symmetry; apply Z.leb_le; lia).
  rewrite Py_index_in_range by lia. reflexivity.
Qed.

Section FixedDisk.

Variable q : Env.

(** Qt's canonical form is stable: it names the same directory and is its
    own canonical form. *)
Hypothesis exists_absolute :
  forall p, QDir_exists q p = true ->
            QDir_exists q (QDir_absolutePath q p) = true.
Hypothesis absolute_idempotent :
  forall p, QDir_absolutePath q (QDir_absolutePath q p) =
            QDir_absolutePath q p.

Lemma canonical_recorded_ok (p : string) :
  visitable q p = true -> recorded_ok q (QDir_absolutePath q p).
Proof.
  intros Hv. destruct (visitable_inv q p Hv) as (Hex & Hidx & Hdir).
  split; [| apply absolute_idempotent].
  unfold visitable. rewrite absolute_idempotent, Hidx.
  rewrite (exists_absolute p Hex). cbn. exact Hdir.
Qed.

Lemma coherent_ext (w w' : MainWindow) :
  history_state w' = history_state w ->
  rootIndex w' = rootIndex w ->
  coherent q w -> coherent q w'.
Proof.
  intros Hs Hr. apply history_state_inv in Hs. destruct Hs as [Hh Hp].
  unfold coherent, position_in_bounds, shown_is_current.
  now rewrite Hh, Hp, Hr.
Qed.

Lemma refresh_settled (w : MainWindow) :
  coherent q w -> settled q (update_history_buttons_state w).
Proof.
  intros Hc. split.
  - apply (coherent_ext w); [reflexivity | reflexivity | exact Hc].
  - split; reflexivity.
Qed.

Lemma settled_ext (w w' : MainWindow) :
  history_state w' = history_state w ->
  rootIndex w' = rootIndex w ->
  back_enabled w' = back_enabled w ->
  forward_enabled w' = forward_enabled w ->
  settled q w -> settled q w'.
Proof.
  intros Hs Hr Hb Hf [Hc [Heb Hef]]. split.
  - exact (coherent_ext w w' Hs Hr Hc).
  - apply history_state_inv in Hs. destruct Hs as [Hh Hp].
    unfold enablement_correct, canGoBack, canGoForward.
    rewrite Hh, Hp, Hb, Hf. split; assumption.
Qed.

Lemma record_visit_points_at (np : string) (w : MainWindow) :
  Py.index (history (record_visit np w))
           (history_position (record_visit np w)) = Some np.
Proof.
  destruct (record_visit_shape np w) as [n [Hshape ->]]. cbn zeta in Hshape.
  destruct Hshape as [[-> _] | [-> [Hne Hlast]]].
  - rewrite Py_index_in_range
      by (unfold Py.len; rewrite length_app; cbn [List.length]; lia).
    unfold Py.len. rewrite length_app. cbn [List.length].
    replace (Z.to_nat (Z.of_nat (List.length (firstn n (history w)) + 1) - 1))
      with (List.length (firstn n (history w))) by lia.
    rewrite nth_error_app2 by lia. now rewrite Nat.sub_diag.
  - rewrite <- Py_index_last by exact Hne.
    unfold Py.last_differs in Hlast.
    destruct (Py.index (firstn n (history w)) (-1)) as [e |];
      [| discriminate Hlast].
    apply negb_false_iff, String.eqb_eq in Hlast. now subst.
Qed.

Lemma record_visit_coherent (np : string) (w : MainWindow) :
  coherent q w -> recorded_ok q np ->
  coherent q (record_visit np (setText np (setRootIndex (NodeIndex np) w))).
Proof.
  intros (Hb & Hd & He & _) Hnp.
  set (w0 := setText np (setRootIndex (NodeIndex np) w)).
  assert (Hmove : history_move w (record_visit np w0)).
  { apply move_visit with (np := np).
    apply record_visit_reads_history. reflexivity. }
  split; [| split; [| split]].
  - exact (history_move_bounds w _ Hmove Hb).
  - exact (history_move_no_adjacent_duplicates w _ Hmove Hd).
  - destruct (record_visit_shape np w0) as [n [Hshape _]].
    cbn zeta in Hshape. change (history w0) with (history w) in Hshape.
    intros i e Hi.
    assert (Hkept : forall j x,
               nth_error (firstn n (history w)) j = Some x -> recorded_ok q x).
    { intros j x Hj. rewrite nth_error_firstn in Hj.
      destruct (Nat.ltb j n); [exact (He j x Hj) | discriminate Hj]. }
    destruct Hshape as [[Hh _] | [Hh _]]; rewrite Hh in Hi.
    + rewrite nth_error_app in Hi.
      destruct (Nat.ltb i (List.length (firstn n (history w))));
        [exact (Hkept i e Hi) |].
      destruct (i - List.length (firstn n (history w)))%nat as [| k];
        cbn in Hi; [injection Hi as <-; exact Hnp |].
      destruct k; discriminate Hi.
    + exact (Hkept i e Hi).
  - unfold shown_is_current. rewrite record_visit_points_at.
    now destruct (record_visit_frame np w0) as (_ & _ & ->).
Qed.

(** Every fresh navigation keeps the window coherent, and its buttons
    right if they were. *)
Lemma change_directory_fresh_coherent (p : string) (w : MainWindow) :
  coherent q w ->
  coherent q (change_directory q p false w) /\
  (enablement_correct w -> enablement_correct (change_directory q p false w)).
Proof.
  intros Hc.
  assert (Hkeep : forall w', history_state w' = history_state w ->
                             rootIndex w' = rootIndex w ->
                             back_enabled w' = back_enabled w ->
                             forward_enabled w' = forward_enabled w ->
                             coherent q w' /\
                             (enablement_correct w -> enablement_correct w')).
  { intros w' Hs Hr Hb Hf. split; [exact (coherent_ext w w' Hs Hr Hc) |].
    intros He. exact (proj2 (settled_ext w w' Hs Hr Hb Hf (conj Hc He))). }
  assert (Hfresh : forall w', coherent q w' ->
                              coherent q (update_history_buttons_state w') /\
                              (enablement_correct w ->
                               enablement_correct
                                 (update_history_buttons_state w'))).
  { intros w' Hc'. destruct (refresh_settled w' Hc'). auto. }
  unfold change_directory.
  destruct (QDir_exists q p) eqn:Hex; cbn; [| now apply Hkeep].
  destruct (isValid (rootIndex w) &&
            String.eqb (filePath (rootIndex w)) (QDir_absolutePath q p));
    [now apply Hfresh |].
  destruct (isValid (fs_model_index q (QDir_absolutePath q p)) &&
            fs_model_isDir q (fs_model_index q (QDir_absolutePath q p)))
    eqn:Hdir; cbn.
  - assert (Hv : visitable q p = true)
      by (unfold visitable; now rewrite Hex, <- andb_assoc, Hdir).
    destruct (visitable_inv q p Hv) as (_ & -> & _).
    apply Hfresh.
    apply record_visit_coherent;
      [exact Hc | exact (canonical_recorded_ok p Hv)].
  - destruct (negb (fs_model_isDir q
                      (fs_model_index q (QDir_absolutePath q p))) &&
              isValid (fs_model_index q (QDir_absolutePath q p)));
      now apply Hkeep.
Qed.

Lemma change_directory_fresh_settled (p : string) (w : MainWindow) :
  settled q w -> settled q (change_directory q p false w).
Proof.
  intros [Hc He].
  destruct (change_directory_fresh_coherent p w Hc) as [Hc' He'].
  split; auto.
Qed.

(** A replay onto a recorded entry other than the shown one shows it. *)
Lemma replay_onto_neighbour (e : string) (w : MainWindow) :
  recorded_ok q e -> rootIndex w <> NodeIndex e ->
  change_directory q e true w =
  update_history_buttons_state (setText e (setRootIndex (NodeIndex e) w)).
Proof.
  intros [Hv Hcanon] Hother.
  destruct (visitable_inv q e Hv) as (Hex & Hidx & Hdir).
  rewrite Hcanon in Hidx, Hdir.
  unfold change_directory. rewrite Hex, Hcanon. cbn.
  destruct (isValid (rootIndex w) && String.eqb (filePath (rootIndex w)) e)
    eqn:Hsame.
  - apply valid_index_with_path in Hsame. contradiction.
  - rewrite Hidx. cbn. now rewrite Hdir.
Qed.

Lemma nth_error_in_range {A : Type} (l : list A) (i : Z) :
  0 <= i < Py.len l -> exists x, nth_error l (Z.to_nat i) = Some x.
Proof.
  intros Hi. destruct (nth_error l (Z.to_nat i)) as [x |] eqn:Hx;
    [now exists x |].
  apply nth_error_None in Hx. unfold Py.len in Hi. lia.
Qed.

(** Two neighbouring positions of a coherent window hold two different
    recorded entries. *)
Lemma coherent_neighbours (w : MainWindow) (i : Z) :
  coherent q w -> 0 <= i -> i + 1 < Py.len (history w) ->
  exists a b,
    Py.index (history w) i = Some a /\
    Py.index (history w) (i + 1) = Some b /\
    recorded_ok q a /\ recorded_ok q b /\ a <> b.
Proof.
  intros (_ & Hd & He & _) Hlo Hhi.
  destruct (nth_error_in_range (history w) i) as [a Ha]; [lia |].
  destruct (nth_error_in_range (history w) (i + 1)) as [b Hb]; [lia |].
  exists a, b. rewrite !Py_index_in_range by lia.
  repeat split;
    [exact Ha | exact Hb | exact (proj1 (He _ a Ha))
     | exact (proj2 (He _ a Ha)) | exact (proj1 (He _ b Hb))
     | exact (proj2 (He _ b Hb)) |].
  replace (Z.to_nat (i + 1)) with (S (Z.to_nat i)) in Hb by lia.
  exact (Hd _ a b Ha Hb).
Qed.

Lemma moved_to_settled (e : string) (i : Z) (w : MainWindow) :
  coherent q w -> 0 <= i < Py.len (history w) ->
  Py.index (history w) i = Some e ->
  settled q (moved_to e i w).
Proof.
  intros (_ & Hd & He & _) Hi Hidx. apply refresh_settled.
  split; [| split; [| split]].
  - right. exact Hi.
  - exact Hd.
  - exact He.
  - unfold shown_is_current. cbn. now rewrite Hidx.
Qed.

Lemma coherent_position (w : MainWindow) :
  coherent q w -> history_position w <> -1 ->
  0 <= history_position w < Py.len (history w).
Proof.
  intros ([[_ Hp] | Hb] & _) Hne; [contradiction | exact Hb].
Qed.

Lemma go_back_on_fixed_disk (w : MainWindow) :
  coherent q w -> 0 < history_position w ->
  exists e,
    Py.index (history w) (history_position w - 1) = Some e /\
    go_back q w = Returned (moved_to e (history_position w - 1) w).
Proof.
  intros Hc Hpos.
  pose proof (coherent_position w Hc ltac:(lia)) as Hb.
  destruct (coherent_neighbours w (history_position w - 1) Hc)
    as (a & b & Ha & Hb' & Hoka & _ & Hab); [lia | lia |].
  replace (history_position w - 1 + 1) with (history_position w) in Hb'
    by lia.
  exists a. split; [exact Ha |].
  rewrite (go_back_returns q w a Hpos Ha).
  rewrite replay_onto_neighbour; [reflexivity | exact Hoka |].
  destruct Hc as (_ & _ & _ & Hshown). unfold shown_is_current in Hshown.
  rewrite Hb' in Hshown. cbn. rewrite Hshown. intros [= E]. now apply Hab.
Qed.

Lemma go_forward_returns (w : MainWindow) (p : string) :
  history_position w < Py.len (history w) - 1 ->
  Py.index (history w) (history_position w + 1) = Some p ->
  go_forward q w =
  Returned (change_directory q p true
              (set_history_position (history_position w + 1) w)).
Proof.
  intros Hpos Hp. unfold go_forward, replay.
  replace (history_position w <? Py.len (history w) - 1) with true
    by (symmetry; lia).
  cbn. rewrite Hp. reflexivity.
Qed.

Lemma go_forward_on_fixed_disk (w : MainWindow) :
  coherent q w -> history_position w < Py.len (history w) - 1 ->
  exists e,
    Py.index (history w) (history_position w + 1) = Some e /\
    go_forward q w = Returned (moved_to e (history_position w + 1) w).
Proof.
  intros Hc Hpos.
  assert (Hb : 0 <= history_position w < Py.len (history w)).
  { destruct Hc as ([[Hh Hp] | Hb] & _); [| exact Hb].
    rewrite Hh, Hp in Hpos. unfold Py.len in Hpos. cbn in Hpos. lia. }
  destruct (coherent_neighbours w (history_position w) Hc)
    as (a & b & Ha & Hb' & _ & Hokb & Hab); [lia | lia |].
  exists b. split; [exact Hb' |].
  rewrite (go_forward_returns w b Hpos Hb').
  rewrite replay_onto_neighbour; [reflexivity | exact Hokb |].
  destruct Hc as (_ & _ & _ & Hshown). unfold shown_is_current in Hshown.
  rewrite Ha in Hshown. cbn. rewrite Hshown. intros [= E]. now apply Hab.
Qed.

Lemma step_settled (s : Signal) (w : MainWindow) :
  settled q w -> settled q (step q s w).
Proof.
  intros Hs. unfold step.
  destruct s as [t | i | i | | |]; cbn.
  - unfold on_address_bar_return_pressed. cbn.
    apply change_directory_fresh_settled. now apply (settled_ext w).
  - unfold on_list_view_double_clicked.
    destruct (fs_model_isDir q i);
      [now apply change_directory_fresh_settled | exact Hs].
  - unfold on_tree_view_clicked.
    destruct (fs_model_isDir q i);
      [now apply change_directory_fresh_settled | exact Hs].
  - unfold go_up.
    destruct (QDir_cdUp q (current_path w));
      [now apply change_directory_fresh_settled | now apply (settled_ext w)].
  - destruct (Z.ltb_spec 0 (history_position w)) as [Hpos | Hpos].
    + destruct (go_back_on_fixed_disk w (proj1 Hs) Hpos) as (e & He & ->).
      pose proof (coherent_position w (proj1 Hs) ltac:(lia)).
      apply moved_to_settled; [exact (proj1 Hs) | lia | exact He].
    + unfold go_back.
      replace (history_position w >? 0) with false by (symmetry; lia).
      exact Hs.
  - destruct (Z.ltb_spec (history_position w) (Py.len (history w) - 1))
      as [Hpos | Hpos].
    + destruct (go_forward_on_fixed_disk w (proj1 Hs) Hpos) as (e & He & ->).
      apply moved_to_settled; [exact (proj1 Hs) | | exact He].
      destruct Hs as [([[Hh Hp] | Hb] & _) _]; [| lia].
      rewrite Hh, Hp in Hpos. unfold Py.len in Hpos. cbn in Hpos. lia.
    + unfold go_forward.
      replace (history_position w <? Py.len (history w) - 1) with false
        by (symmetry; lia).
      exact Hs.
Qed.

Lemma init_settled : settled q (init q).
Proof.
  unfold init. apply refresh_settled.
  apply change_directory_fresh_coherent.
  split; [| split; [| split]].
  - left. split; reflexivity.
  - intros [| i] a b Ha; discriminate Ha.
  - intros [| i] e He; discriminate He.
  - reflexivity.
Qed.

(** On a disk that does not change, every reachable window is settled: in
    particular the exposed enablement is the one §4.2 asks for. *)
Lemma fixed_disk_settled (w : MainWindow) :
  reachable_on_fixed_disk q w -> settled q w.
Proof.
  induction 1 as [| s w _ IH]; [apply init_settled | now apply step_settled].
Qed.

(** On a disk that does not change, back followed by forward restores the
    shown directory, both enablements, the entries and the position. *)
Lemma fixed_disk_back_forward (w : MainWindow) :
  settled q w -> canGoBack w = true ->
  let w2 := window (go_forward q (window (go_back q w))) in
  exposed w2 = exposed w /\ history_state w2 = history_state w.
Proof.
  intros [Hc [Heb Hef]] Hcan. unfold canGoBack in Hcan.
  assert (Hpos : 0 < history_position w) by lia.
  pose proof (coherent_position w Hc ltac:(lia)) as Hb.
  destruct (go_back_on_fixed_disk w Hc Hpos) as (a & Ha & ->).
  cbn [window].
  pose proof (moved_to_settled a (history_position w - 1) w Hc
                ltac:(lia) Ha) as [Hc1 _].
  destruct (go_forward_on_fixed_disk _ Hc1) as (b & Hb' & ->);
    [cbn; lia |].
  cbn in Hb'.
  replace (history_position w - 1 + 1) with (history_position w) in Hb'
    by lia.
  cbn zeta. cbn [window].
  destruct Hc as (_ & _ & _ & Hshown). unfold shown_is_current in Hshown.
  rewrite Hb' in Hshown.
  unfold exposed, current_path, history_state.
  rewrite Hshown, Heb, Hef. unfold canGoBack, canGoForward. cbn.
  replace (history_position w - 1 + 1) with (history_position w) by lia.
  split; reflexivity.
Qed.

End FixedDisk.

(** The two assumptions of the section hold for Qt over any directory tree
    whose canonical form is idempotent, the sample one included. *)
Lemma Qt_fixed_disk_settled (fs : FileSystem) (w : MainWindow) :
  (forall p, absolute_of fs (absolute_of fs p) = absolute_of fs p) ->
  reachable_on_fixed_disk (Qt fs) w -> settled (Qt fs) w.
Proof.
  intros Hidem. apply fixed_disk_settled; cbn.
  - intros p Hp. now rewrite Hidem.
  - exact Hidem.
Qed.

Lemma sample_disk_enablement_correct (w : MainWindow) :
  reachable_on_fixed_disk (Qt sample_disk) w -> enablement_correct w.
Proof.
  intros Hw.
  exact (proj2 (Qt_fixed_disk_settled sample_disk w (fun p => eq_refl) Hw)).
Qed.

(** X15: in every reachable window, whatever Qt answers, every slot
    returns: [self.history[self.history_position]] in [go_back] and
    [go_forward] never raises IndexError. *)
Lemma reachable_slot_returns (q : Env) (s : Signal) (w : MainWindow) :
  reachable w -> exists w', slot q s w = Returned w'.
Proof.
  intros Hw. pose proof (reachable_position_in_bounds w Hw) as Hb.
  destruct s as [t | i | i | | |]; cbn; try (eexists; reflexivity).
  - unfold go_back.
    destruct (Z.gtb_spec (history_position w) 0) as [Hpos | Hpos];
      [| eexists; reflexivity].
    destruct Hb as [[_ Hp] | Hb]; [lia |].
    destruct (nth_error_in_range (history w) (history_position w - 1))
      as [e He]; [lia |].
    unfold replay. cbn. rewrite Py_index_in_range, He by lia.
    eexists; reflexivity.
  - unfold go_forward.
    destruct (Z.ltb_spec (history_position w) (Py.len (history w) - 1))
      as [Hpos | Hpos]; [| eexists; reflexivity].
    destruct Hb as [[Hh Hp] | Hb];
      [rewrite Hh, Hp in Hpos; unfold Py.len in Hpos; cbn in Hpos; lia |].
    destruct (nth_error_in_range (history w) (history_position w + 1))
      as [e He]; [lia |].
    unfold replay. cbn. rewrite Py_index_in_range, He by lia.
    eexists; reflexivity.
Qed.

(** * Further properties of the window *)

(** ** What one recorded visit does, exactly *)

Lemma record_visit_unfold (np : string) (w : MainWindow) :
  history_state (record_visit np w) =
  let kept := if history_position w <? Py.len (history w) - 1
              then Py.slice_to (history w) (history_position w + 1)
              else history w in
  let h' := if Py.is_empty kept || Py.last_differs kept np
            then (kept ++ [np])%list else kept in
  (h', Py.len h' - 1).
Proof.
  unfold history_state, record_visit. cbn zeta.
  destruct (history_position w <? Py.len (history w) - 1); cbn;
    match goal with
    | |- context [if ?c then _ else _] => destruct c
    end; reflexivity.
Qed.

(** With the position in bounds, what survives the truncation is the
    prefix up to and including the position. *)
Lemma kept_is_prefix (w : MainWindow) :
  position_in_bounds w ->
  (if history_position w <? Py.len (history w) - 1
   then Py.slice_to (history w) (history_position w + 1)
   else history w) =
  firstn (Z.to_nat (history_position w + 1)) (history w).
Proof.
  intros [[Hh Hp] | Hb].
  - rewrite Hh, Hp. reflexivity.
  - destruct (Z.ltb_spec (history_position w) (Py.len (history w) - 1))
      as [Hlt | Hge].
    + unfold Py.slice_to.
      replace (0 <=? history_position w + 1) with true
        by (symmetry; apply Z.leb_le; lia).
      reflexivity.
    + rewrite firstn_all2; [reflexivity |]. unfold Py.len in *. lia.
Qed.

Lemma record_visit_exact (np : string) (w : MainWindow) :
  position_in_bounds w ->
  match Py.index (history w) (history_position w) with
  | Some e => e <> np
  | None => True
  end ->
  history_state (record_visit np w) =
  ((firstn (Z.to_nat (history_position w + 1)) (history w) ++ [np])%list,
   history_position w + 1).
Proof.
  intros Hb Hcur. rewrite record_visit_unfold. cbn zeta.
  rewrite (kept_is_prefix w Hb).
  destruct Hb as [[Hh Hp] | Hb].
  - rewrite Hh, Hp. reflexivity.
  - set (kept := firstn (Z.to_nat (history_position w + 1)) (history w)).
    assert (Hlen : List.length kept = Z.to_nat (history_position w + 1)).
    { subst kept. rewrite length_firstn. unfold Py.len in Hb. lia. }
    assert (Hne : kept <> []).
    { intros E. rewrite E in Hlen. cbn in Hlen. lia. }
    assert (Hlast : Py.last_differs kept np = true).
    { unfold Py.last_differs. rewrite (Py_index_last kept Hne).
      rewrite Py_index_in_range by (unfold Py.len; lia).
      replace (Z.to_nat (Py.len kept - 1))
        with (Z.to_nat (history_position w)) by (unfold Py.len; lia).
      subst kept. rewrite nth_error_firstn.
      replace (Nat.ltb (Z.to_nat (history_position w))
                       (Z.to_nat (history_position w + 1)))
        with true by (symmetry; apply Nat.ltb_lt; lia).
      rewrite Py_index_in_range in Hcur by lia.
      destruct (nth_error (history w) (Z.to_nat (history_position w)))
        as [e |]; [| reflexivity].
      apply negb_true_iff, String.eqb_neq. exact Hcur. }
    rewrite Hlast, orb_true_r.
    f_equal. unfold Py.len. rewrite length_app, Hlen. cbn [List.length]. lia.
Qed.

(** On a visitable path other than the shown one, the whole effect of a
    fresh [change_directory] is the success branch. *)
Lemma change_directory_visit_eq (q : Env) (p : string) (w : MainWindow) :
  visitable q p = true ->
  rootIndex w <> NodeIndex (QDir_absolutePath q p) ->
  change_directory q p false w =
  update_history_buttons_state
    (record_visit (QDir_absolutePath q p)
       (setText (QDir_absolutePath q p)
          (setRootIndex (NodeIndex (QDir_absolutePath q p)) w))).
Proof.
  intros Hv Hother. destruct (visitable_inv q p Hv) as (Hex & Hidx & Hdir).
  unfold change_directory. rewrite Hex. cbn.
  destruct (isValid (rootIndex w) &&
            String.eqb (filePath (rootIndex w)) (QDir_absolutePath q p))
    eqn:Hsame.
  - apply valid_index_with_path in Hsame. contradiction.
  - rewrite Hidx. cbn. now rewrite Hdir.
Qed.

(** ** Branch truncation in general *)

(** X1: in a window whose position is in bounds and whose file list shows
    the entry under the position, a fresh navigation to a visitable path
    other than the shown one keeps the entries up to the position, drops
    every later one, appends the canonical path and points at it; the file
    list and the address bar show that path, forward is disabled, back is
    enabled exactly when an entry was kept, and no message is written. *)
Theorem fresh_visit_truncates_and_appends (q : Env) (p : string)
    (w : MainWindow) :
  position_in_bounds w ->
  shown_is_current w ->
  visitable q p = true ->
  rootIndex w <> NodeIndex (QDir_absolutePath q p) ->
  let np := QDir_absolutePath q p in
  let w' := change_directory q p false w in
  history w' =
  (firstn (Z.to_nat (history_position w + 1)) (history w) ++ [np])%list /\
  history_position w' = history_position w + 1 /\
  rootIndex w' = NodeIndex np /\
  address_bar w' = np /\
  back_enabled w' = (history_position w + 1 >? 0) /\
  forward_enabled w' = false /\
  status_bar w' = status_bar w.
Proof.
  intros Hb Hshown Hv Hother. cbn zeta.
  set (np := QDir_absolutePath q p).
  set (w0 := setText np (setRootIndex (NodeIndex np) w)).
  assert (Hs : history_state (record_visit np w0) =
               ((firstn (Z.to_nat (history_position w + 1)) (history w)
                   ++ [np])%list, history_position w + 1)).
  { apply (record_visit_exact np w0 Hb).
    change (history w0) with (history w).
    change (history_position w0) with (history_position w).
    unfold shown_is_current in Hshown.
    destruct (Py.index (history w) (history_position w)) as [e |];
      [| exact I].
    intros E. apply Hother. now rewrite Hshown, E. }
  apply history_state_pair in Hs. destruct Hs as [Hh Hp].
  destruct (record_visit_frame np w0) as (Ha & Hst & Hr).
  rewrite (change_directory_visit_eq q p w Hv Hother). fold np. fold w0.
  remember (record_visit np w0) as w1 eqn:Hw1.
  unfold update_history_buttons_state. cbn.
  rewrite Hh, Hp, Ha, Hst, Hr. repeat split; try reflexivity.
  apply Z.ltb_ge. unfold Py.len. rewrite length_app. cbn [List.length].
  assert (List.length
            (firstn (Z.to_nat (history_position w + 1)) (history w))
          <= Z.to_nat (history_position w + 1))%nat
    by apply firstn_le_length.
  destruct Hb as [[_ Hpw] | Hb]; lia.
Qed.

Lemma fresh_visit_truncates_and_appends_witness :
  let q := Qt sample_disk in
  let w := window (go_back q visited_srv_then_etc) in
  let w' := change_directory q "/home/u/docs" false w in
  (history w = ["/home/u"; "/srv"; "/etc"]%string /\
   history_position w = 1) /\
  history w' = ["/home/u"; "/srv"; "/home/u/docs"]%string /\
  history_position w' = 2 /\
  rootIndex w' = NodeIndex "/home/u/docs" /\
  address_bar w' = "/home/u/docs"%string /\
  back_enabled w' = true /\
  forward_enabled w' = false /\
  status_bar w' = status_bar w.
Proof.
  split; [split; reflexivity |].
  apply (fresh_visit_truncates_and_appends (Qt sample_disk) "/home/u/docs"
           (window (go_back (Qt sample_disk) visited_srv_then_etc))).
  - right. split; [vm_compute; discriminate | vm_compute; reflexivity].
  - vm_compute. reflexivity.
  - vm_compute. reflexivity.
  - vm_compute. discriminate.
Defined.

(** ** The entries up to the position are never rewritten *)

(** X2: whatever signal arrives and whatever Qt answers, a window whose
    position is in bounds keeps every entry at or before the position. *)
Theorem entries_up_to_position_are_kept (q : Env) (s : Signal)
    (w : MainWindow) (i : nat) :
  position_in_bounds w ->
  Z.of_nat i <= history_position w ->
  nth_error (history (step q s w)) i = nth_error (history w) i.
Proof.
  intros Hb Hi.
  destruct (step_move q s w) as [H | np H | _ H | _ H].
  - apply history_state_inv in H. destruct H as [-> _]. reflexivity.
  - rewrite record_visit_unfold in H. cbn zeta in H.
    rewrite (kept_is_prefix w Hb) in H.
    apply history_state_pair in H. destruct H as [-> _].
    assert (Hkept : nth_error
                      (firstn (Z.to_nat (history_position w + 1))
                              (history w)) i
                    = nth_error (history w) i).
    { rewrite nth_error_firstn.
      replace (Nat.ltb i (Z.to_nat (history_position w + 1))) with true
        by (symmetry; apply Nat.ltb_lt; lia).
      reflexivity. }
    match goal with
    | |- context [if ?c then _ else _] => destruct c
    end; [| exact Hkept].
    rewrite nth_error_app1; [exact Hkept |].
    rewrite length_firstn.
    destruct Hb as [[_ Hp] | Hb]; unfold Py.len in *; lia.
  - apply history_state_pair in H. destruct H as [-> _]. reflexivity.
  - apply history_state_pair in H. destruct H as [-> _]. reflexivity.
Qed.

Lemma entries_up_to_position_are_kept_witness :
  let q := Qt sample_disk in
  let w := window (go_back q visited_srv_then_etc) in
  nth_error (history (step q (ReturnPressed "/home/u/docs") w)) 1 =
  nth_error (history w) 1.
Proof.
  apply (entries_up_to_position_are_kept (Qt sample_disk)
           (ReturnPressed "/home/u/docs")
           (window (go_back (Qt sample_disk) visited_srv_then_etc)) 1).
  - right. split; [vm_compute; discriminate | vm_compute; reflexivity].
  - vm_compute. discriminate.
Defined.

(** ** [change_directory], branch by branch *)

Lemma shown_path_test (i : QModelIndex) (p : string) :
  isValid i && String.eqb (filePath i) p = false -> i <> NodeIndex p.
Proof.
  intros Htest ->. cbn in Htest. now rewrite String.eqb_refl in Htest.
Qed.

Lemma branch_cases (q : Env) (p : string) (w : MainWindow) : branch q p w.
Proof.
  destruct (QDir_exists q p) eqn:Hex; [| now apply branch_missing].
  destruct (isValid (rootIndex w) &&
            String.eqb (filePath (rootIndex w)) (QDir_absolutePath q p))
    eqn:Hsame.
  - apply branch_same; [exact Hex | now apply valid_index_with_path].
  - apply shown_path_test in Hsame.
    destruct (fs_model_has q (QDir_absolutePath q p)) eqn:Hhas;
      [| now apply branch_no_node].
    destruct (fs_model_isDir q (NodeIndex (QDir_absolutePath q p))) eqn:Hdir;
      [| now apply branch_not_a_directory].
    apply branch_visit; [| exact Hsame].
    unfold visitable, fs_model_index. rewrite Hex, Hhas. cbn. exact Hdir.
Qed.

Lemma change_directory_missing (q : Env) (p : string) (b : bool)
    (w : MainWindow) :
  QDir_exists q p = false ->
  change_directory q p b w =
  revert_address_bar b
    (showMessage ("Path does not exist: " ++ p)%string 5000 w).
Proof. intros Hex. unfold change_directory. now rewrite Hex. Qed.

Lemma change_directory_same (q : Env) (p : string) (b : bool)
    (w : MainWindow) :
  QDir_exists q p = true ->
  rootIndex w = NodeIndex (QDir_absolutePath q p) ->
  change_directory q p b w =
  if negb b then update_history_buttons_state w else w.
Proof.
  intros Hex Hroot. unfold change_directory. rewrite Hex, Hroot. cbn.
  now rewrite String.eqb_refl.
Qed.

Lemma change_directory_replay_visit (q : Env) (p : string) (w : MainWindow) :
  visitable q p = true ->
  rootIndex w <> NodeIndex (QDir_absolutePath q p) ->
  change_directory q p true w =
  update_history_buttons_state
    (setText (QDir_absolutePath q p)
       (setRootIndex (NodeIndex (QDir_absolutePath q p)) w)).
Proof.
  intros Hv Hother. destruct (visitable_inv q p Hv) as (Hex & Hidx & Hdir).
  unfold change_directory. rewrite Hex. cbn.
  destruct (isValid (rootIndex w) &&
            String.eqb (filePath (rootIndex w)) (QDir_absolutePath q p))
    eqn:Hsame.
  - apply valid_index_with_path in Hsame. contradiction.
  - rewrite Hidx. cbn. now rewrite Hdir.
Qed.

Lemma change_directory_not_a_directory (q : Env) (p : string) (b : bool)
    (w : MainWindow) :
  QDir_exists q p = true ->
  rootIndex w <> NodeIndex (QDir_absolutePath q p) ->
  fs_model_has q (QDir_absolutePath q p) = true ->
  fs_model_isDir q (NodeIndex (QDir_absolutePath q p)) = false ->
  change_directory q p b w =
  revert_address_bar b
    (showMessage ("Not a directory: " ++ QDir_absolutePath q p)%string
                 3000 w).
Proof.
  intros Hex Hother Hhas Hfile. unfold change_directory. rewrite Hex. cbn.
  destruct (isValid (rootIndex w) &&
            String.eqb (filePath (rootIndex w)) (QDir_absolutePath q p))
    eqn:Hsame.
  - apply valid_index_with_path in Hsame. contradiction.
  - unfold fs_model_index. rewrite Hhas. cbn. now rewrite Hfile.
Qed.

Lemma change_directory_no_node (q : Env) (p : string) (b : bool)
    (w : MainWindow) :
  QDir_exists q p = true ->
  rootIndex w <> NodeIndex (QDir_absolutePath q p) ->
  fs_model_has q (QDir_absolutePath q p) = false ->
  change_directory q p b w =
  revert_address_bar b
    (showMessage ("Cannot navigate to: " ++ QDir_absolutePath q p)%string
                 3000 w).
Proof.
  intros Hex Hother Hhas. unfold change_directory. rewrite Hex. cbn.
  destruct (isValid (rootIndex w) &&
            String.eqb (filePath (rootIndex w)) (QDir_absolutePath q p))
    eqn:Hsame.
  - apply valid_index_with_path in Hsame. contradiction.
  - unfold fs_model_index. rewrite Hhas. cbn.
    now rewrite andb_false_r.
Qed.

(** ** Navigating twice to the same path *)

(** X3: a fresh navigation is idempotent: calling [change_directory] again
    with the same path, under the same answers of Qt, changes nothing at
    all, whichever branch the first call took. *)
Theorem fresh_change_directory_idempotent (q : Env) (p : string)
    (w : MainWindow) :
  change_directory q p false (change_directory q p false w) =
  change_directory q p false w.
Proof.
  destruct (branch_cases q p w) as [Hex | Hex Hroot | Hv Hother
                                    | Hex Hother Hhas Hfile
                                    | Hex Hother Hhas].
  - rewrite !(change_directory_missing q p false) by exact Hex. reflexivity.
  - rewrite (change_directory_same q p false w Hex Hroot). cbn [negb].
    rewrite (change_directory_same q p false
               (update_history_buttons_state w) Hex Hroot).
    reflexivity.
  - rewrite (change_directory_visit_eq q p w Hv Hother).
    set (w0 := setText (QDir_absolutePath q p)
                 (setRootIndex (NodeIndex (QDir_absolutePath q p)) w)).
    remember (record_visit (QDir_absolutePath q p) w0) as w1 eqn:Hw1.
    assert (Hroot : rootIndex (update_history_buttons_state w1) =
                    NodeIndex (QDir_absolutePath q p)).
    { change (rootIndex w1 = NodeIndex (QDir_absolutePath q p)).
      subst w1.
      now destruct (record_visit_frame (QDir_absolutePath q p) w0)
        as (_ & _ & ->). }
    destruct (visitable_inv q p Hv) as (Hex & _ & _).
    rewrite (change_directory_same q p false _ Hex Hroot). reflexivity.
  - rewrite (change_directory_not_a_directory q p false w)
      by assumption.
    rewrite (change_directory_not_a_directory q p false) by assumption.
    reflexivity.
  - rewrite (change_directory_no_node q p false w) by assumption.
    rewrite (change_directory_no_node q p false) by assumption.
    reflexivity.
Qed.

(** ** The history follows the file list *)

Lemma fresh_step_cases (q : Env) (s : Signal) (w : MainWindow) :
  fresh s = true ->
  step q s w = w \/
  (exists m, step q s w = showMessage m 3000 w) \/
  (exists p w0, (w0 = w \/ exists t, w0 = setText t w) /\
                step q s w = change_directory q p false w0).
Proof.
  intros Hfresh. unfold step.
  destruct s as [t | i | i | | |]; cbn; try discriminate Hfresh.
  - right. right. exists t, (setText t w). split; [right; now exists t |].
    reflexivity.
  - unfold on_list_view_double_clicked.
    destruct (fs_model_isDir q i); [| now left].
    right. right. exists (filePath i), w. auto.
  - unfold on_tree_view_clicked.
    destruct (fs_model_isDir q i); [| now left].
    right. right. exists (filePath i), w. auto.
  - unfold go_up. destruct (QDir_cdUp q (current_path w)) as [parent |].
    + right. right. exists parent, w. auto.
    + right. left. eexists. reflexivity.
Qed.

Lemma change_directory_unchanged_view (q : Env) (p : string) (b : bool)
    (w : MainWindow) :
  rootIndex (change_directory q p b w) = rootIndex w ->
  history_state (change_directory q p b w) = history_state w /\
  (b = true ->
   address_bar (change_directory q p b w) = address_bar w /\
   back_enabled (change_directory q p b w) = back_enabled w /\
   forward_enabled (change_directory q p b w) = forward_enabled w).
Proof.
  destruct (branch_cases q p w) as [Hex | Hex Hroot | Hv Hother
                                    | Hex Hother Hhas Hfile
                                    | Hex Hother Hhas].
  - rewrite (change_directory_missing q p b w Hex).
    intros _. destruct b; cbn; split; auto; discriminate.
  - rewrite (change_directory_same q p b w Hex Hroot).
    intros _. destruct b; cbn; split; auto; discriminate.
  - intros Hkept. exfalso. apply Hother. rewrite <- Hkept.
    apply change_directory_shows. exact Hv.
  - rewrite (change_directory_not_a_directory q p b w) by assumption.
    intros _. destruct b; cbn; split; auto; discriminate.
  - rewrite (change_directory_no_node q p b w) by assumption.
    intros _. destruct b; cbn; split; auto; discriminate.
Qed.

(** X4: a fresh signal (address bar, double-click, tree click, up) that
    leaves the file list on the same directory leaves the entries and the
    position as they were, whatever Qt answers. *)
Theorem unchanged_view_keeps_history (q : Env) (s : Signal)
    (w : MainWindow) :
  fresh s = true ->
  rootIndex (step q s w) = rootIndex w ->
  history (step q s w) = history w /\
  history_position (step q s w) = history_position w.
Proof.
  intros Hfresh Hkept. apply history_state_inv.
  destruct (fresh_step_cases q s w Hfresh)
    as [E | [[m E] | (p & w0 & Hw0 & E)]]; rewrite E in *.
  - reflexivity.
  - reflexivity.
  - assert (Hsame : rootIndex w0 = rootIndex w /\
                    history_state w0 = history_state w)
      by (destruct Hw0 as [-> | [t ->]]; split; reflexivity).
    destruct Hsame as [Hr Hs]. rewrite <- Hr in Hkept.
    rewrite (proj1 (change_directory_unchanged_view q p false w0 Hkept)).
    exact Hs.
Qed.

Lemma unchanged_view_keeps_history_witness :
  let q := Qt sample_disk in
  let w := visited_srv_then_etc in
  history (step q (ReturnPressed "/etc/passwd") w) = history w /\
  history_position (step q (ReturnPressed "/etc/passwd") w) =
  history_position w.
Proof.
  apply (unchanged_view_keeps_history (Qt sample_disk)
           (ReturnPressed "/etc/passwd") visited_srv_then_etc);
    vm_compute; reflexivity.
Defined.

Lemma change_directory_changed_view (q : Env) (p : string) (w : MainWindow) :
  rootIndex (change_directory q p false w) <> rootIndex w ->
  let w' := change_directory q p false w in
  history_position w' = Py.len (history w') - 1 /\
  Py.index (history w') (history_position w') = Some (current_path w') /\
  address_bar w' = current_path w' /\
  forward_enabled w' = false /\
  back_enabled w' = canGoBack w'.
Proof.
  cbn zeta.
  destruct (branch_cases q p w) as [Hex | Hex Hroot | Hv Hother
                                    | Hex Hother Hhas Hfile
                                    | Hex Hother Hhas].
  - rewrite (change_directory_missing q p false w Hex).
    intros Hchanged. now contradiction Hchanged.
  - rewrite (change_directory_same q p false w Hex Hroot).
    intros Hchanged. now contradiction Hchanged.
  - intros _. rewrite (change_directory_visit_eq q p w Hv Hother).
    set (np := QDir_absolutePath q p).
    set (w0 := setText np (setRootIndex (NodeIndex np) w)).
    pose proof (record_visit_points_at np w0) as Hat.
    destruct (record_visit_shape np w0) as [n [_ Hpos]].
    destruct (record_visit_frame np w0) as (Ha & _ & Hr).
    remember (record_visit np w0) as w1 eqn:Hw1.
    unfold current_path, canGoBack, update_history_buttons_state. cbn.
    rewrite Hr, Ha, Hat. cbn. repeat split; try assumption.
    apply Z.ltb_ge. lia.
  - rewrite (change_directory_not_a_directory q p false w) by assumption.
    intros Hchanged. now contradiction Hchanged.
  - rewrite (change_directory_no_node q p false w) by assumption.
    intros Hchanged. now contradiction Hchanged.
Qed.

(** X5: whenever a fresh signal makes the file list show another directory,
    the window ends on the last entry of the history, that entry is the
    directory now shown, the address bar shows it too, forward is disabled
    and back is enabled exactly when the position is positive. *)
Theorem changed_view_is_last_entry (q : Env) (s : Signal) (w : MainWindow) :
  fresh s = true ->
  rootIndex (step q s w) <> rootIndex w ->
  let w' := step q s w in
  history_position w' = Py.len (history w') - 1 /\
  Py.index (history w') (history_position w') = Some (current_path w') /\
  address_bar w' = current_path w' /\
  forward_enabled w' = false /\
  back_enabled w' = canGoBack w'.
Proof.
  intros Hfresh Hchanged. cbn zeta.
  destruct (fresh_step_cases q s w Hfresh)
    as [E | [[m E] | (p & w0 & Hw0 & E)]]; rewrite E in *.
  - now contradiction Hchanged.
  - now contradiction Hchanged.
  - apply change_directory_changed_view.
    destruct Hw0 as [-> | [t ->]]; exact Hchanged.
Qed.

Lemma changed_view_is_last_entry_witness :
  let q := Qt sample_disk in
  let w := window (go_back q visited_srv_then_etc) in
  let w' := step q UpTriggered w in
  history_position w' = Py.len (history w') - 1 /\
  Py.index (history w') (history_position w') = Some (current_path w') /\
  address_bar w' = current_path w' /\
  forward_enabled w' = false /\
  back_enabled w' = canGoBack w'.
Proof.
  apply (changed_view_is_last_entry (Qt sample_disk) UpTriggered
           (window (go_back (Qt sample_disk) visited_srv_then_etc))).
  - reflexivity.
  - vm_compute. discriminate.
Defined.

(** ** The address bar *)

(** X6: after a fresh [change_directory] the address bar shows the
    directory of the file list, except when the path was the one already
    shown. *)
Theorem address_bar_shows_current_path (q : Env) (p : string)
    (w : MainWindow) :
  (QDir_exists q p = true ->
   rootIndex w <> NodeIndex (QDir_absolutePath q p)) ->
  address_bar (change_directory q p false w) =
  current_path (change_directory q p false w).
Proof.
  intros Hnot_shown.
  destruct (branch_cases q p w) as [Hex | Hex Hroot | Hv Hother
                                    | Hex Hother Hhas Hfile
                                    | Hex Hother Hhas].
  - rewrite (change_directory_missing q p false w Hex). reflexivity.
  - now contradiction (Hnot_shown Hex).
  - apply change_directory_changed_view.
    rewrite (change_directory_shows q p false w Hv).
    intros E. apply Hother. now symmetry.
  - rewrite (change_directory_not_a_directory q p false w) by assumption.
    reflexivity.
  - rewrite (change_directory_no_node q p false w) by assumption.
    reflexivity.
Qed.

Lemma address_bar_shows_current_path_witness :
  let q := Qt sample_disk in
  let w := setText "/etc/passwd" visited_srv_then_etc in
  address_bar (change_directory q "/etc/passwd" false w) =
  current_path (change_directory q "/etc/passwd" false w).
Proof.
  apply (address_bar_shows_current_path (Qt sample_disk) "/etc/passwd"
           (setText "/etc/passwd" visited_srv_then_etc)).
  vm_compute. discriminate.
Defined.

(** X7: when the text typed in the address bar is another spelling of the
    directory already shown, return leaves the typed text in the address
    bar and changes nothing but the two buttons, which are refreshed. *)
Theorem typed_alias_stays_in_address_bar (q : Env) (t : string)
    (w : MainWindow) :
  QDir_exists q t = true ->
  rootIndex w = NodeIndex (QDir_absolutePath q t) ->
  step q (ReturnPressed t) w =
  update_history_buttons_state (setText t w) /\
  address_bar (step q (ReturnPressed t) w) = t /\
  current_path (step q (ReturnPressed t) w) = QDir_absolutePath q t.
Proof.
  intros Hex Hroot.
  assert (E : step q (ReturnPressed t) w =
              update_history_buttons_state (setText t w)).
  { unfold step. cbn. unfold on_address_bar_return_pressed. cbn.
    now rewrite (change_directory_same q t false (setText t w) Hex Hroot). }
  rewrite E. unfold current_path. cbn. rewrite Hroot. auto.
Qed.

(** ** Rejected paths *)

(** X8: a fresh navigation to a path that cannot be shown, and is not the
    one shown, puts the address bar back to the shown directory, leaves
    file list, entries, position and buttons alone, and reports why:
    missing when [QDir.exists()] is false, not a directory when the model
    has a node for it, cannot navigate when the model has none. *)
Theorem rejected_navigation_reports_and_reverts (q : Env) (p : string)
    (w : MainWindow) :
  visitable q p = false ->
  (QDir_exists q p = true ->
   rootIndex w <> NodeIndex (QDir_absolutePath q p)) ->
  let np := QDir_absolutePath q p in
  let w' := change_directory q p false w in
  address_bar w' = current_path w /\
  rootIndex w' = rootIndex w /\
  history w' = history w /\
  history_position w' = history_position w /\
  back_enabled w' = back_enabled w /\
  forward_enabled w' = forward_enabled w /\
  ((QDir_exists q p = false /\
    status_bar w' = Some (("Path does not exist: " ++ p)%string, 5000)) \/
   (QDir_exists q p = true /\ fs_model_has q np = true /\
    status_bar w' = Some (("Not a directory: " ++ np)%string, 3000)) \/
   (QDir_exists q p = true /\ fs_model_has q np = false /\
    status_bar w' = Some (("Cannot navigate to: " ++ np)%string, 3000))).
Proof.
  intros Hrej Hnot_shown. cbn zeta.
  destruct (branch_cases q p w) as [Hex | Hex Hroot | Hv Hother
                                    | Hex Hother Hhas Hfile
                                    | Hex Hother Hhas].
  - rewrite (change_directory_missing q p false w Hex). cbn.
    repeat split; auto.
  - now contradiction (Hnot_shown Hex).
  - rewrite Hv in Hrej. discriminate Hrej.
  - rewrite (change_directory_not_a_directory q p false w) by assumption.
    cbn. repeat split; auto.
  - rewrite (change_directory_no_node q p false w) by assumption.
    cbn. repeat split; auto 6.
Qed.

Lemma rejected_navigation_reports_and_reverts_witness :
  let q := Qt sample_disk in
  let w := setText "/nowhere" visited_srv_then_etc in
  let w' := change_directory q "/nowhere" false w in
  address_bar w' = "/etc"%string /\
  rootIndex w' = rootIndex w /\
  history w' = history w /\
  history_position w' = history_position w /\
  back_enabled w' = back_enabled w /\
  forward_enabled w' = forward_enabled w /\
  ((QDir_exists q "/nowhere" = false /\
    status_bar w' = Some ("Path does not exist: /nowhere"%string, 5000)) \/
   (QDir_exists q "/nowhere" = true /\ fs_model_has q "/nowhere" = true /\
    status_bar w' = Some ("Not a directory: /nowhere"%string, 3000)) \/
   (QDir_exists q "/nowhere" = true /\ fs_model_has q "/nowhere" = false /\
    status_bar w' = Some ("Cannot navigate to: /nowhere"%string, 3000))).
Proof.
  apply (rejected_navigation_reports_and_reverts (Qt sample_disk) "/nowhere"
           (setText "/nowhere" visited_srv_then_etc)).
  - reflexivity.
  - vm_compute. discriminate.
Defined.

Lemma typed_alias_stays_in_address_bar_witness :
  let q := Qt alias_disk in
  let w := init q in
  step q (ReturnPressed "/home/u/.") w =
  update_history_buttons_state (setText "/home/u/." w) /\
  address_bar (step q (ReturnPressed "/home/u/.") w) = "/home/u/."%string /\
  current_path (step q (ReturnPressed "/home/u/.") w) = "/home/u"%string.
Proof.
  apply (typed_alias_stays_in_address_bar (Qt alias_disk) "/home/u/."
           (init (Qt alias_disk))); reflexivity.
Defined.

(** ** Replays that do not reach their target *)

Lemma replay_slots_unchanged_view (q : Env) (w : MainWindow) :
  (rootIndex (window (go_back q w)) = rootIndex w ->
   history (window (go_back q w)) = history w /\
   address_bar (window (go_back q w)) = address_bar w /\
   back_enabled (window (go_back q w)) = back_enabled w /\
   forward_enabled (window (go_back q w)) = forward_enabled w) /\
  (rootIndex (window (go_forward q w)) = rootIndex w ->
   history (window (go_forward q w)) = history w /\
   address_bar (window (go_forward q w)) = address_bar w /\
   back_enabled (window (go_forward q w)) = back_enabled w /\
   forward_enabled (window (go_forward q w)) = forward_enabled w).
Proof.
  assert (Hreplay : forall w0,
             rootIndex (window (replay q w0)) = rootIndex w0 ->
             history (window (replay q w0)) = history w0 /\
             address_bar (window (replay q w0)) = address_bar w0 /\
             back_enabled (window (replay q w0)) = back_enabled w0 /\
             forward_enabled (window (replay q w0)) = forward_enabled w0).
  { intros w0. unfold replay.
    destruct (Py.index (history w0) (history_position w0)) as [e |];
      cbn [window]; [| auto].
    intros Hkept.
    destruct (change_directory_unchanged_view q e true w0 Hkept)
      as [Hs Hrest].
    apply history_state_inv in Hs. destruct Hs as [Hh _].
    destruct (Hrest eq_refl) as (Ha & Hb & Hf). auto. }
  unfold go_back, go_forward. split.
  - destruct (history_position w >? 0); cbn [window]; [| auto].
    intros Hkept. exact (Hreplay _ Hkept).
  - destruct (history_position w <? Py.len (history w) - 1);
      cbn [window]; [| auto].
    intros Hkept. exact (Hreplay _ Hkept).
Qed.

(** X9: a back or forward press after which the file list still shows the
    same directory has changed neither the entries, nor the address bar,
    nor either button; only the position and the status message may
    differ. *)
Theorem replay_without_view_change (q : Env) (s : Signal) (w : MainWindow) :
  fresh s = false ->
  rootIndex (step q s w) = rootIndex w ->
  history (step q s w) = history w /\
  address_bar (step q s w) = address_bar w /\
  back_enabled (step q s w) = back_enabled w /\
  forward_enabled (step q s w) = forward_enabled w.
Proof.
  intros Hreplay.
  destruct (replay_slots_unchanged_view q w) as [Hback Hforward].
  destruct s; try discriminate Hreplay; [exact Hback | exact Hforward].
Qed.

Lemma replay_without_view_change_witness :
  let q := Qt sample_disk_without_srv in
  let w := visited_srv_then_etc in
  (history_position (step q BackTriggered w) = 1 /\
   history_position w = 2) /\
  history (step q BackTriggered w) = history w /\
  address_bar (step q BackTriggered w) = address_bar w /\
  back_enabled (step q BackTriggered w) = back_enabled w /\
  forward_enabled (step q BackTriggered w) = forward_enabled w.
Proof.
  split; [split; vm_compute; reflexivity |].
  apply (replay_without_view_change (Qt sample_disk_without_srv)
           BackTriggered visited_srv_then_etc); vm_compute; reflexivity.
Defined.

(** ** Start-up *)


Lemma constructed_is_reachable (q : Env) (w : MainWindow) :
  __init__ q = Constructed w -> reachable w.
Proof.
  unfold __init__.
  destruct (fs_model_has_setNameSortingEnabled q); [| discriminate].
  intros [= <-]. apply reach_init.
Qed.


(** ** Growth of the history *)

(** X11: no signal makes the history longer by more than one entry. *)
Theorem history_grows_by_at_most_one (q : Env) (s : Signal)
    (w : MainWindow) :
  Py.len (history (step q s w)) <= Py.len (history w) + 1.
Proof.
  destruct (step_move q s w) as [H | np H | _ H | _ H].
  - apply history_state_inv in H. destruct H as [-> _]. lia.
  - apply history_state_inv in H. destruct H as [-> _].
    destruct (record_visit_shape np w) as [n [Hshape _]].
    cbn zeta in Hshape.
    destruct Hshape as [[-> _] | [-> _]]; unfold Py.len;
      rewrite ?length_app, length_firstn; cbn [List.length]; lia.
  - apply history_state_pair in H. destruct H as [-> _]. lia.
  - apply history_state_pair in H. destruct H as [-> _]. lia.
Qed.

(** ** On a disk that does not change *)

(** X12: while Qt keeps giving the same answers, with a canonical form
    that is stable, every reachable window exposes the enablement of §4.2,
    shows in the file list the entry under the position, and holds only
    entries that are visitable and in canonical form. *)
Theorem fixed_disk_invariants (q : Env) (w : MainWindow) :
  (forall p, QDir_exists q p = true ->
             QDir_exists q (QDir_absolutePath q p) = true) ->
  (forall p, QDir_absolutePath q (QDir_absolutePath q p) =
             QDir_absolutePath q p) ->
  reachable_on_fixed_disk q w ->
  back_enabled w = (history_position w >? 0) /\
  forward_enabled w = (history_position w <? Py.len (history w) - 1) /\
  match Py.index (history w) (history_position w) with
  | Some e => rootIndex w = NodeIndex e
  | None => rootIndex w = InvalidIndex /\ history w = []
  end /\
  (forall e, In e (history w) ->
             visitable q e = true /\ QDir_absolutePath q e = e).
Proof.
  intros Hex Hidem Hreach.
  destruct (fixed_disk_settled q Hex Hidem w Hreach)
    as [(Hb & _ & He & Hshown) [Hback Hfwd]].
  split; [exact Hback |]. split; [exact Hfwd |]. split.
  - unfold shown_is_current in Hshown.
    destruct (Py.index (history w) (history_position w)) as [e |] eqn:Hidx;
      [exact Hshown |].
    split; [exact Hshown |].
    destruct Hb as [[Hh _] | Hb]; [exact Hh |].
    rewrite Py_index_in_range in Hidx by exact Hb.
    apply nth_error_None in Hidx. unfold Py.len in Hb. lia.
  - intros e Hin. apply In_nth_error in Hin. destruct Hin as [i Hi].
    exact (He i e Hi).
Qed.

Lemma fixed_disk_invariants_witness :
  let q := Qt sample_disk in
  let w := run [(q, ReturnPressed "/srv"%string); (q, UpTriggered);
                (q, BackTriggered)] (init q) in
  back_enabled w = (history_position w >? 0) /\
  forward_enabled w = (history_position w <? Py.len (history w) - 1) /\
  match Py.index (history w) (history_position w) with
  | Some e => rootIndex w = NodeIndex e
  | None => rootIndex w = InvalidIndex /\ history w = []
  end /\
  (forall e, In e (history w) ->
             visitable q e = true /\ QDir_absolutePath q e = e).
Proof.
  apply (fixed_disk_invariants (Qt sample_disk)
           (run [(Qt sample_disk, ReturnPressed "/srv"%string);
                 (Qt sample_disk, UpTriggered);
                 (Qt sample_disk, BackTriggered)] (init (Qt sample_disk)))).
  - intros p Hp. exact Hp.
  - reflexivity.
  - cbn [run]. repeat apply fixed_step. apply fixed_init.
Defined.

(** X13: while Qt keeps giving the same answers, from every reachable
    window with a positive position, back followed by forward restores the
    shown directory, both enablements, the entries and the position, and
    neither press raises. *)
Theorem fixed_disk_back_then_forward (q : Env) (w : MainWindow) :
  (forall p, QDir_exists q p = true ->
             QDir_exists q (QDir_absolutePath q p) = true) ->
  (forall p, QDir_absolutePath q (QDir_absolutePath q p) =
             QDir_absolutePath q p) ->
  reachable_on_fixed_disk q w ->
  history_position w > 0 ->
  let w1 := window (go_back q w) in
  let w2 := window (go_forward q w1) in
  go_back q w = Returned w1 /\
  go_forward q w1 = Returned w2 /\
  exposed w2 = exposed w /\
  history w2 = history w /\
  history_position w2 = history_position w.
Proof.
  intros Hex Hidem Hreach Hpos. cbn zeta.
  pose proof (fixed_disk_settled q Hex Hidem w Hreach) as Hs.
  assert (Hcan : canGoBack w = true) by (unfold canGoBack; lia).
  destruct (fixed_disk_back_forward q w Hs Hcan) as [Hexp Hst].
  apply history_state_inv in Hst. destruct Hst as [Hh Hp].
  destruct (go_back_on_fixed_disk q w (proj1 Hs) ltac:(lia))
    as (a & Ha & Hback).
  pose proof (coherent_position q w (proj1 Hs) ltac:(lia)) as Hb.
  pose proof (moved_to_settled q a (history_position w - 1) w (proj1 Hs)
                ltac:(lia) Ha) as [Hc1 _].
  assert (Hfwd : exists w2, go_forward q (window (go_back q w)) =
                            Returned w2).
  { rewrite Hback. cbn [window].
    destruct (go_forward_on_fixed_disk q _ Hc1) as (b & _ & ->);
      [cbn; lia |].
    eexists; reflexivity. }
  destruct Hfwd as [w2 Hfwd].
  repeat split; try assumption.
  - rewrite Hback. reflexivity.
  - rewrite Hfwd. reflexivity.
Qed.

Lemma fixed_disk_back_then_forward_witness :
  let q := Qt sample_disk in
  let w := visited_srv_then_etc in
  let w1 := window (go_back q w) in
  let w2 := window (go_forward q w1) in
  go_back q w = Returned w1 /\
  go_forward q w1 = Returned w2 /\
  exposed w2 = exposed w /\
  history w2 = history w /\
  history_position w2 = history_position w.
Proof.
  apply (fixed_disk_back_then_forward (Qt sample_disk) visited_srv_then_etc).
  - intros p Hp. exact Hp.
  - reflexivity.
  - unfold visited_srv_then_etc. cbn [run].
    repeat apply fixed_step. apply fixed_init.
  - vm_compute. reflexivity.
Defined.

(** ** Back after a fresh navigation *)

Lemma changed_view_is_visit (q : Env) (p : string) (w : MainWindow) :
  rootIndex (change_directory q p false w) <> rootIndex w ->
  visitable q p = true /\
  rootIndex w <> NodeIndex (QDir_absolutePath q p).
Proof.
  destruct (branch_cases q p w) as [Hex | Hex Hroot | Hv Hother
                                    | Hex Hother Hhas Hfile
                                    | Hex Hother Hhas].
  - rewrite (change_directory_missing q p false w Hex).
    intros Hchanged. now contradiction Hchanged.
  - rewrite (change_directory_same q p false w Hex Hroot).
    intros Hchanged. now contradiction Hchanged.
  - auto.
  - rewrite (change_directory_not_a_directory q p false w) by assumption.
    intros Hchanged. now contradiction Hchanged.
  - rewrite (change_directory_no_node q p false w) by assumption.
    intros Hchanged. now contradiction Hchanged.
Qed.

Lemma back_after_visit (q : Env) (p : string) (w : MainWindow) :
  settled q w ->
  settled q (change_directory q p false w) ->
  history w <> [] ->
  rootIndex (change_directory q p false w) <> rootIndex w ->
  let w1 := change_directory q p false w in
  let w2 := window (go_back q w1) in
  go_back q w1 = Returned w2 /\
  rootIndex w2 = rootIndex w /\
  address_bar w2 = current_path w /\
  history w2 = history w1 /\
  history_position w2 = history_position w /\
  back_enabled w2 = back_enabled w /\
  forward_enabled w2 = true.
Proof.
  intros [Hc [Hback _]] [Hc1 _] Hne Hchanged. cbn zeta.
  destruct (changed_view_is_visit q p w Hchanged) as [Hv Hother].
  set (np := QDir_absolutePath q p) in *.
  assert (Hb : 0 <= history_position w < Py.len (history w)).
  { destruct Hc as ([[Hh _] | Hb] & _); [contradiction | exact Hb]. }
  destruct (nth_error_in_range (history w) (history_position w) Hb)
    as [e0 He0].
  assert (Hshown : rootIndex w = NodeIndex e0).
  { destruct Hc as (_ & _ & _ & Hshown). unfold shown_is_current in Hshown.
    now rewrite Py_index_in_range, He0 in Hshown by exact Hb. }
  assert (Hs1 : history_state (change_directory q p false w) =
                ((firstn (Z.to_nat (history_position w + 1)) (history w)
                    ++ [np])%list, history_position w + 1)).
  { rewrite (change_directory_fresh_visit q p w Hv Hother).
    apply record_visit_exact; [exact (proj1 Hc) |].
    rewrite Py_index_in_range, He0 by exact Hb.
    intros E. apply Hother. now rewrite Hshown, E. }
  apply history_state_pair in Hs1. destruct Hs1 as [Hh1 Hp1].
  destruct (go_back_on_fixed_disk q _ Hc1) as (e & He & Hgo); [lia |].
  rewrite Hp1 in He, Hgo.
  replace (history_position w + 1 - 1) with (history_position w) in He, Hgo
    by lia.
  assert (Hlen : List.length
                   (firstn (Z.to_nat (history_position w + 1)) (history w))
                 = Z.to_nat (history_position w + 1)).
  { rewrite length_firstn. unfold Py.len in Hb. lia. }
  assert (Hee : e = e0).
  { rewrite Hh1 in He.
    rewrite Py_index_in_range in He
      by (unfold Py.len; rewrite length_app, Hlen; cbn [List.length]; lia).
    rewrite nth_error_app1 in He by lia.
    rewrite nth_error_firstn in He.
    replace (Nat.ltb (Z.to_nat (history_position w))
                     (Z.to_nat (history_position w + 1)))
      with true in He by (symmetry; apply Nat.ltb_lt; lia).
    congruence. }
  subst e. rewrite Hgo. cbn [window].
  unfold moved_to, update_history_buttons_state, current_path. cbn.
  rewrite Hshown, Hh1, Hback. unfold canGoBack.
  repeat split; try reflexivity.
  apply Z.ltb_lt. unfold Py.len. rewrite length_app, Hlen.
  cbn [List.length]. lia.
Qed.

(** X14: while Qt keeps giving the same answers, back undoes a fresh
    navigation: from a reachable window with a non-empty history, after any
    fresh signal that made the file list show another directory, one back
    press shows the former directory again at the former position, keeps
    the entries of the navigation, and enables forward. *)
Theorem back_undoes_fresh_navigation (q : Env) (s : Signal)
    (w : MainWindow) :
  (forall p, QDir_exists q p = true ->
             QDir_exists q (QDir_absolutePath q p) = true) ->
  (forall p, QDir_absolutePath q (QDir_absolutePath q p) =
             QDir_absolutePath q p) ->
  reachable_on_fixed_disk q w ->
  history w <> [] ->
  fresh s = true ->
  rootIndex (step q s w) <> rootIndex w ->
  let w1 := step q s w in
  let w2 := window (go_back q w1) in
  go_back q w1 = Returned w2 /\
  rootIndex w2 = rootIndex w /\
  address_bar w2 = current_path w /\
  history w2 = history w1 /\
  history_position w2 = history_position w /\
  back_enabled w2 = back_enabled w /\
  forward_enabled w2 = true.
Proof.
  intros Hex Hidem Hreach Hne Hfresh Hchanged. cbn zeta.
  pose proof (fixed_disk_settled q Hex Hidem w Hreach) as Hs.
  pose proof (step_settled q Hex Hidem s w Hs) as Hs1.
  destruct (fresh_step_cases q s w Hfresh)
    as [E | [[m E] | (p & w0 & Hw0 & E)]]; rewrite E in *.
  - now contradiction Hchanged.
  - now contradiction Hchanged.
  - destruct Hw0 as [-> | [t ->]].
    + exact (back_after_visit q p w Hs Hs1 Hne Hchanged).
    + assert (Hs0 : settled q (setText t w))
        by (now apply (settled_ext q w)).
      exact (back_after_visit q p (setText t w) Hs0 Hs1 Hne Hchanged).
Qed.

Lemma back_undoes_fresh_navigation_witness :
  let q := Qt sample_disk in
  let w := visited_srv_then_etc in
  let w1 := step q UpTriggered w in
  let w2 := window (go_back q w1) in
  go_back q w1 = Returned w2 /\
  rootIndex w2 = rootIndex w /\
  address_bar w2 = current_path w /\
  history w2 = history w1 /\
  history_position w2 = history_position w /\
  back_enabled w2 = back_enabled w /\
  forward_enabled w2 = true.
Proof.
  apply (back_undoes_fresh_navigation (Qt sample_disk) UpTriggered
           visited_srv_then_etc).
  - intros p Hp. exact Hp.
  - reflexivity.
  - unfold visited_srv_then_etc. cbn [run].
    repeat apply fixed_step. apply fixed_init.
  - vm_compute. discriminate.
  - reflexivity.
  - vm_compute. discriminate.
Defined.

(** ** Sample sessions for the two properties stated earlier *)

Lemma reachable_slot_returns_witness :
  exists w',
    slot (Qt sample_disk_without_srv) BackTriggered visited_srv_then_etc =
    Returned w'.
Proof.
  apply (reachable_slot_returns (Qt sample_disk_without_srv) BackTriggered
           visited_srv_then_etc).
  unfold visited_srv_then_etc. cbn [run].
  repeat apply reach_step. apply reach_init.
Defined.

Lemma fresh_signal_enablement_witness :
  enablement_correct
    (step (Qt sample_disk) (ReturnPressed "/nowhere") visited_srv_then_etc).
Proof.
  apply (fresh_signal_enablement (Qt sample_disk) (ReturnPressed "/nowhere")
           visited_srv_then_etc).
  - discriminate.
  - discriminate.
  - split; vm_compute; reflexivity.
Defined.
